(** * Action hub: Google Drive and SFTP actions

    A shallow embedding of [src/actions/google/drive/google_drive.ts]
    (class [GoogleDriveAction]) and of the SFTP action (class [SFTPAction]),
    with the properties of the action runtime that the design document
    states about them.

    Promises are modelled by a writer/exception monad [M]: a computation
    yields the list of externally visible events it performed (calls to the
    provider, to the codec, log lines) together with the way its promise
    settles.  Everything outside the two classes (the Google client
    libraries, the crypto codec, the JSON built-ins, the SFTP client, the
    process environment) is gathered in one record [World] of oracles. *)

From stdpp Require Import base strings gmap list pretty.
From Stdlib Require Import ZArith Lia.

Set Warnings "-register-all".

Local Open Scope Z_scope.

(** ** JavaScript values *)

(** Values as the code sees them after [JSON.parse], extended with
    [undefined].  Numbers are kept as integers: the code only tests them
    for truthiness and for strict equality with integer literals. *)
Inductive value : Type :=
| VUndef
| VNull
| VBool (b : bool)
| VNum (n : Z)
| VStr (s : string)
| VArr (items : list value)
| VObj (props : list (string * value)).

(** ToBoolean. *)
Definition truthy (v : value) : bool :=
  match v with
  | VUndef | VNull => false
  | VBool b => b
  | VNum n => negb (n =? 0)
  | VStr s => negb (String.eqb s "")
  | VArr _ | VObj _ => true
  end.

(** Own-property lookup in an object literal; a missing key reads as
    [undefined]. *)
Fixpoint assoc (k : string) (ps : list (string * value)) : value :=
  match ps with
  | [] => VUndef
  | (k', v) :: rest => if String.eqb k k' then v else assoc k rest
  end.

(** [o[k] = v] on an object literal: replace in place, or append. *)
Fixpoint set_prop (k : string) (v : value) (ps : list (string * value))
  : list (string * value) :=
  match ps with
  | [] => [(k, v)]
  | (k', v') :: rest =>
      if String.eqb k k' then (k, v) :: rest else (k', v') :: set_prop k v rest
  end.

(** Property read [v.k] for the keys the code uses (none of them is a
    built-in property of a primitive or of an array).  [None] stands for the
    [TypeError] raised when [v] is [null] or [undefined]. *)
Definition get (v : value) (k : string) : option value :=
  match v with
  | VUndef | VNull => None
  | VObj ps => Some (assoc k ps)
  | _ => Some VUndef
  end.

(** [v === n] and [v !== n] for a number literal [n]. *)
Definition strict_eq_num (v : value) (n : Z) : bool :=
  match v with
  | VNum m => m =? n
  | _ => false
  end.

Definition strict_neq_num (v : value) (n : Z) : bool := negb (strict_eq_num v n).

(** [v !== undefined]. *)
Definition is_defined (v : value) : bool :=
  match v with
  | VUndef => false
  | _ => true
  end.

(** A [string | undefined] slot read as a value. *)
Definition of_opt (o : option string) : value :=
  match o with
  | Some s => VStr s
  | None => VUndef
  end.

(** Truthiness of a [string | undefined] slot. *)
Definition truthy_str (o : option string) : bool := truthy (of_opt o).

(** The error objects the runtime itself raises. *)
Definition TypeError : value := VObj [("name", VStr "TypeError")].
Definition SyntaxError : value := VObj [("name", VStr "SyntaxError")].

(** ** Data model of the hub *)

Record Attachment := {
  dataBuffer : option (list Byte.byte);
  mime : option string
}.

Record ActionRequest := {
  params : gmap string string;
  formParams : gmap string string;
  attachment : option Attachment;
  webhookId : option string
}.

Record ActionState := { data : option string }.

(** [new Hub.ActionState()]. *)
Definition new_ActionState : ActionState := {| data := None |}.

Record FieldOption := { opt_name : value; opt_label : value }.

Record ActionFormField := {
  name : string;
  label : string;
  description : option string;
  type : string;
  required : option bool;
  interactive : option bool;
  options : option (list FieldOption);
  default : option value;
  oauth_url : option string
}.

Record ActionForm := {
  fields : list ActionFormField;
  state : option ActionState
}.

(** The [Error] record of [hub/action_response]. *)
Record Error := {
  http_code : value;
  status_code : string;
  message : string;
  location : string;
  documentation_url : string
}.

(** An entry of the [HTTP_ERROR] table. *)
Record HttpErrorType := {
  code : Z;
  status : string;
  err_description : string
}.

Record ActionResponse := {
  success : bool;
  resp_message : value;
  resp_state : option ActionState;
  resp_error : option Error;
  resp_webhookId : option string
}.

(** [new Hub.ActionResponse()]: a fresh response reports success and
    carries nothing else. *)
Definition new_ActionResponse : ActionResponse :=
  {| success := true; resp_message := VUndef; resp_state := None;
     resp_error := None; resp_webhookId := None |}.

(** The sentinel telling the caller to drop its cached state. *)
Definition reset_state : ActionState := {| data := Some "reset" |}.

(** ** Provider data *)

Record OAuth2Client := {
  client_id : option string;
  client_secret : option string;
  redirect_uri : value;
  credentials : option value
}.

Record Drive := { version : string; auth : OAuth2Client }.

Record AuthUrlOpts := {
  access_type : string;
  scope : list string;
  prompt : string;
  auth_state : string
}.

(** Options of [drive.files.list]. *)
Record ListOptions := {
  lo_fields : option string;
  lo_orderBy : option string;
  lo_pageSize : Z;
  lo_q : option string;
  lo_spaces : option string;
  lo_driveId : option string;
  lo_includeItemsFromAllDrives : option bool;
  lo_supportsAllDrives : option bool;
  lo_corpora : option string;
  lo_pageToken : value
}.

Record Schema_File := { file_id : value; file_name : value }.

Record FileList := {
  files : option (list Schema_File);
  nextPageToken : value
}.

Record Schema_Drive := { drive_id : value; drive_name : value }.

Record DriveList := { drives : option (list Schema_Drive) }.

Record FileMetadata := {
  fm_name : string;
  fm_mimeType : option string;
  fm_parents : option (list string);
  fm_driveId : option string
}.

Record CreateParams := {
  requestBody : FileMetadata;
  cp_supportsAllDrives : option bool
}.

Record ConnectOptions := {
  host : string;
  username : option string;
  password : option string;
  port : Z
}.

Record URL := { hostname : string; pathname : string; url_port : string }.

(** ** Promises *)

(** How a promise settles.  [Pending] is a promise that is not settled
    within the modelled run: an executor that raised before calling
    [resolve] or [reject], an external call that never answers, or a
    pagination loop that outlives its fuel. *)
Inductive outcome (A : Type) : Type :=
| Resolved (a : A)
| Rejected (reason : value)
| Pending.

Arguments Resolved {A} a.
Arguments Rejected {A} reason.
Arguments Pending {A}.

(** Answer of a Google or HTTP client call.  These libraries reject with
    error objects, so a rejection carries the properties of that object. *)
Inductive api_outcome (A : Type) : Type :=
| ApiOk (a : A)
| ApiErr (props : list (string * value))
| ApiHang.

Arguments ApiOk {A} a.
Arguments ApiErr {A} props.
Arguments ApiHang {A}.

Definition of_api {A} (r : api_outcome A) : outcome A :=
  match r with
  | ApiOk a => Resolved a
  | ApiErr ps => Rejected (VObj ps)
  | ApiHang => Pending
  end.

(** Externally visible steps of a run, in program order. *)
Inductive event : Type :=
| Log (level : string) (msg : string) (webhook : option string)
| CallDecrypt (blob : value)
| CallEncrypt (plaintext : string)
| CallGetToken (c : OAuth2Client) (authcode : value)
| CallPost (url : value) (body : string)
| CallDrivesList (d : Drive) (pageSize : Z)
| CallFilesList (d : Drive) (o : ListOptions)
| CallFilesCreate (d : Drive) (p : CreateParams)
| CallStream
| CallSftpConnect (o : ConnectOptions)
| CallSftpPut (payload : list Byte.byte) (remotePath : string).

(** A computation: the events it performed and how it settled. *)
Definition M (A : Type) : Type := (list event * outcome A)%type.

Definition ret {A} (a : A) : M A := ([], Resolved a).
Definition throw {A} (r : value) : M A := ([], Rejected r).
Definition emit (e : event) : M unit := ([e], Resolved tt).

Definition bind {A B} (m : M A) (k : A -> M B) : M B :=
  match m with
  | (t, Resolved a) => let '(t', o) := k a in (t ++ t', o)
  | (t, Rejected r) => (t, Rejected r)
  | (t, Pending) => (t, Pending)
  end.

(** [try { m } catch (e) { h e }] and [m.catch(h)]. *)
Definition catch {A} (m : M A) (h : value -> M A) : M A :=
  match m with
  | (t, Rejected r) => let '(t', o) := h r in (t ++ t', o)
  | _ => m
  end.

(** An external call: record it, then settle as the oracle says. *)
Definition call {A} (e : event) (r : outcome A) : M A := ([e], r).

(** Reading a property, raising [TypeError] on [null] and [undefined]. *)
Definition read (v : value) (k : string) : M value :=
  match get v k with
  | Some x => ret x
  | None => throw TypeError
  end.

Notation "'let*' x ':=' m 'in' k" := (bind m (fun x => k))
  (at level 10, x pattern, m at level 100, k at level 200).
Notation "m ';;' k" := (bind m (fun _ => k))
  (at level 100, k at level 200, right associativity).

Definition events {A} (m : M A) : list event := fst m.
Definition result {A} (m : M A) : outcome A := snd m.

(** ** The outside world *)

(** Everything the two actions call but do not define.  Each oracle is a
    function of the arguments of the call, so a call repeated with the same
    arguments gets the same answer. *)
Record World := {
  (** [process.env] *)
  env : string -> option string;
  (** [JSON.parse]; [None] when it raises [SyntaxError] *)
  JSON_parse : string -> option value;
  (** [JSON.stringify] on an object literal *)
  JSON_stringify : value -> string;
  (** [String(v)], [v.toString()] and the coercion of string concatenation *)
  to_string : value -> string;
  (** [Hub.ActionCrypto] *)
  crypto_encrypt : string -> outcome string;
  crypto_decrypt : value -> outcome string;
  (** [OAuth2Client.generateAuthUrl] *)
  generateAuthUrl : OAuth2Client -> AuthUrlOpts -> string;
  (** [OAuth2Client.getToken]: the [tokens] property of its answer *)
  getToken : OAuth2Client -> value -> api_outcome value;
  (** [https.post] of request-promise-native *)
  https_post : value -> string -> api_outcome unit;
  (** [drive.drives.list] and [drive.files.list]: the [data] of the answer *)
  drives_list : Drive -> Z -> api_outcome DriveList;
  files_list : Drive -> ListOptions -> api_outcome FileList;
  (** [drive.files.create] *)
  files_create : Drive -> CreateParams -> api_outcome unit;
  (** [Hub.ActionRequest.suggestedFilename] *)
  suggestedFilename : ActionRequest -> option string;
  (** [errorWith] and the two [HTTP_ERROR] entries the code names *)
  errorWith : HttpErrorType -> string -> Error;
  HTTP_ERROR_bad_request : HttpErrorType;
  HTTP_ERROR_internal : HttpErrorType;
  (** [new URL(s)]; [None] when it raises *)
  parse_url : string -> option URL;
  (** [Path.join] *)
  path_join : string -> string -> string;
  (** unary [+] on a string *)
  to_number : string -> Z;
  (** [ssh2-sftp-client]: [connect] and [put] *)
  sftp_connect : ConnectOptions -> outcome unit;
  sftp_put : list Byte.byte -> string -> api_outcome unit
}.

(** String coercion: exact on strings, the oracle elsewhere. *)
Definition str_of (w : World) (v : value) : string :=
  match v with
  | VStr s => s
  | _ => to_string w v
  end.

(** An environment variable interpolated into a template literal. *)
Definition env_str (w : World) (k : string) : string :=
  match env w k with
  | Some s => s
  | None => "undefined"
  end.

(** [JSON.parse(s)] as a computation. *)
Definition parse (w : World) (s : string) : M value :=
  match JSON_parse w s with
  | Some v => ret v
  | None => throw SyntaxError
  end.

(** Modelled from the spec: [Hub.ActionRequest.stream] is not part of the
    sources at hand.  The payload handle is passed through to the callback
    without being materialised, and the call settles as the callback does. *)
Definition stream {A} (request : ActionRequest) (callback : unit -> M A) : M A :=
  emit CallStream ;; callback tt.

(** ** The Google Drive action *)

Module GoogleDriveAction.

(** The instance: its only mutable field. *)
Record t := { mimeType : option string }.

Definition action_name : string := "google_drive".

Section Methods.

Variable w : World.

Definition oauth2Client (redirectUri : value) : OAuth2Client :=
  {| client_id := env w "GOOGLE_DRIVE_CLIENT_ID";
     client_secret := env w "GOOGLE_DRIVE_CLIENT_SECRET";
     redirect_uri := redirectUri;
     credentials := None |}.

Definition setCredentials (c : OAuth2Client) (tokens : value) : OAuth2Client :=
  {| client_id := client_id c; client_secret := client_secret c;
     redirect_uri := redirect_uri c; credentials := Some tokens |}.

(** [google.drive({version: "v3", auth: client})]. *)
Definition google_drive (client : OAuth2Client) : Drive :=
  {| version := "v3"; auth := client |}.

Definition driveClientFromRequest (redirect tokens : value) : M Drive :=
  let client := oauth2Client redirect in
  let client := setCredentials client tokens in
  ret (google_drive client).

Definition getAccessTokenCredentialsFromCode (redirect : string) (authcode : value)
  : M value :=
  let client := oauth2Client (VStr redirect) in
  call (CallGetToken client authcode) (of_api (getToken w client authcode)).

(** Overwrite [config.data] and [config.body] when they are set. *)
Definition redact_prop (k : string) (ps : list (string * value))
  : list (string * value) :=
  if truthy (assoc k ps) then set_prop k (VStr "[REDACTED]") ps else ps.

Definition redact (config : value) : value :=
  match config with
  | VObj ps => VObj (redact_prop "body" (redact_prop "data" ps))
  | _ => config
  end.

(** [sanitizeGaxiosError] mutates the error in place; here it returns the
    error after the mutation.  Redacting [err.config] and
    [err.response.config] separately gives the same object whether or not
    the two are one and the same. *)
Definition sanitizeGaxiosError (err : value) : M value :=
  let* cfg := read err "config" in
  let* resp := read err "response" in
  let* rcfg := (if truthy resp then read resp "config" else ret VUndef) in
  match err with
  | VObj ps =>
      let ps1 := if truthy cfg then set_prop "config" (redact cfg) ps else ps in
      let ps2 :=
        if truthy resp && truthy rcfg then
          match resp with
          | VObj rps =>
              set_prop "response" (VObj (set_prop "config" (redact rcfg) rps)) ps1
          | _ => ps1
          end
        else ps1 in
      ret (VObj ps2)
  | _ => ret err
  end.

Definition generateQuery (search : string) : string :=
  let query := "mimeType='application/vnd.google-apps.folder' and trashed=false" in
  if negb (String.eqb search "") then
    query +:+ " and name contains '" +:+ search +:+ "'"
  else query.

Definition my_drive : FieldOption :=
  {| opt_name := VStr "mydrive"; opt_label := VStr "My Drive" |}.

Definition drive_option (d : Schema_Drive) : FieldOption :=
  {| opt_name := drive_id d; opt_label := drive_name d |}.

Definition getDrives (drive : Drive) : M (list FieldOption) :=
  let driveList := [my_drive] in
  let* drives_resp := call (CallDrivesList drive 50) (of_api (drives_list w drive 50)) in
  match drives drives_resp with
  | Some ds => ret (driveList ++ map drive_option ds)
  | None => ret driveList
  end.

Definition mime_of_format (format : option string) : option string :=
  match format with
  | Some "csv" => Some "text/csv"
  | Some "xlsx" =>
      Some "application/vnd.openxmlformats-officedocument.spreadsheetml.sheet"
  | Some "inline_json" => Some "application/json"
  | Some "json" => Some "application/json"
  | Some "json_label" => Some "application/json"
  | Some "json_detail" => Some "application/json"
  | Some "html" => Some "text/html"
  | Some "txt" => Some "text/plain"
  | _ => None
  end.

Definition attachment_mime (request : ActionRequest) : option string :=
  match attachment request with
  | Some a => mime a
  | None => None
  end.

Definition getMimeType (this : t) (request : ActionRequest) : option string :=
  if truthy_str (mimeType this) then mimeType this
  else if truthy_str (attachment_mime request) then attachment_mime request
  else mime_of_format (formParams request !! "format").

(** [a || b] on [string | undefined] slots. *)
Definition or_else (a b : option string) : option string :=
  if truthy_str a then a else b.

Definition sendData (this : t) (filename : string) (request : ActionRequest)
  (drive : Drive) : M unit :=
  let mimeType := getMimeType this request in
  let fileMetadata :=
    {| fm_name := filename;
       fm_mimeType := mimeType;
       fm_parents :=
         (if truthy_str (formParams request !! "folder")
          then option_map (fun f => [f]) (formParams request !! "folder")
          else None);
       fm_driveId := None |} in
  stream request (fun readable =>
    emit (Log "info" "Creating new file in Drive" (webhookId request)) ;;
    let driveParams :=
      match formParams request !! "drive" with
      | Some d =>
          if negb (String.eqb d "mydrive") then
            {| requestBody :=
                 {| fm_name := fm_name fileMetadata;
                    fm_mimeType := fm_mimeType fileMetadata;
                    fm_parents := fm_parents fileMetadata;
                    fm_driveId := Some d |};
               cp_supportsAllDrives := Some true |}
          else {| requestBody := fileMetadata; cp_supportsAllDrives := None |}
      | None => {| requestBody := fileMetadata; cp_supportsAllDrives := None |}
      end in
    catch
      (call (CallFilesCreate drive driveParams)
            (of_api (files_create w drive driveParams)))
      (fun e =>
         let* e' := sanitizeGaxiosError e in
         emit (Log "error" (to_string w e') (webhookId request)) ;;
         throw e')).

Definition reset_response (resp : ActionResponse) : ActionResponse :=
  {| success := false; resp_message := resp_message resp;
     resp_state := Some reset_state; resp_error := resp_error resp;
     resp_webhookId := resp_webhookId resp |}.

Definition execute (this : t) (request : ActionRequest) : M ActionResponse :=
  let resp := new_ActionResponse in
  match params request !! "state_json" with
  | None => ret (reset_response resp)
  | Some state_json =>
    if negb (truthy (VStr state_json)) then ret (reset_response resp)
    else
      let* stateJson := parse w state_json in
      let* tokens := read stateJson "tokens" in
      let* redirect := (if truthy tokens then read stateJson "redirect" else ret VUndef) in
      if truthy tokens && truthy redirect then
        let* drive := driveClientFromRequest redirect tokens in
        let filename :=
          or_else (formParams request !! "filename") (suggestedFilename w request) in
        match (if truthy_str filename then filename else None) with
        | None =>
            let bad := HTTP_ERROR_bad_request w in
            let error :=
              {| http_code := VNum (code bad);
                 status_code := status bad;
                 message := err_description bad
                            +:+ " Error creating filename from request";
                 location := "ActionContainer";
                 documentation_url := "TODO" |} in
            emit (Log "error" (message error) (webhookId request)) ;;
            ret {| success := false; resp_message := VStr (message error);
                   resp_state := None; resp_error := Some error;
                   resp_webhookId := webhookId request |}
        | Some filename =>
            catch
              (sendData this filename request drive ;;
               ret {| success := true; resp_message := resp_message resp;
                      resp_state := resp_state resp; resp_error := resp_error resp;
                      resp_webhookId := resp_webhookId resp |})
              (fun e =>
                 let* e_message := read e "message" in
                 let error0 :=
                   errorWith w (HTTP_ERROR_internal w)
                     ("Error while sending data " +:+ str_of w e_message) in
                 let* e_code := read e "code" in
                 let* e_reason := (if truthy e_code then read e "reason" else ret VUndef) in
                 let error :=
                   if truthy e_code && truthy e_reason then
                     {| http_code := e_code;
                        status_code := status_code error0;
                        message := err_description (HTTP_ERROR_internal w)
                                   +:+ " " +:+ str_of w e_reason;
                        location := location error0;
                        documentation_url := documentation_url error0 |}
                   else error0 in
                 emit (Log "error" (message error) (webhookId request)) ;;
                 ret {| success := false; resp_message := e_message;
                        resp_state := None; resp_error := Some error;
                        resp_webhookId := webhookId request |})
        end
      else ret (reset_response resp)
  end.

(** *** Form negotiation *)

(** The [options] object handed to [drive.files.list] by [form]. *)
Definition list_options (request : ActionRequest) (search : string) : ListOptions :=
  let query := generateQuery search in
  let shared :=
    match formParams request !! "drive" with
    | Some d => if negb (String.eqb d "mydrive") then Some d else None
    | None => None
    end in
  match shared with
  | Some d =>
      {| lo_fields := Some "files(id,name,parents),nextPageToken";
         lo_orderBy := Some "recency desc";
         lo_pageSize := 1000;
         lo_q := Some query;
         lo_spaces := Some "drive";
         lo_driveId := Some d;
         lo_includeItemsFromAllDrives := Some true;
         lo_supportsAllDrives := Some true;
         lo_corpora := Some "drive";
         lo_pageToken := VUndef |}
  | None =>
      {| lo_fields := Some "files(id,name,parents),nextPageToken";
         lo_orderBy := Some "recency desc";
         lo_pageSize := 1000;
         lo_q := Some query;
         lo_spaces := Some "drive";
         lo_driveId := None;
         lo_includeItemsFromAllDrives := None;
         lo_supportsAllDrives := None;
         lo_corpora := Some "user";
         lo_pageToken := VUndef |}
  end.

(** [{...options, pageToken}]. *)
Definition with_pageToken (o : ListOptions) (tok : value) : ListOptions :=
  {| lo_fields := lo_fields o; lo_orderBy := lo_orderBy o;
     lo_pageSize := lo_pageSize o; lo_q := lo_q o; lo_spaces := lo_spaces o;
     lo_driveId := lo_driveId o;
     lo_includeItemsFromAllDrives := lo_includeItemsFromAllDrives o;
     lo_supportsAllDrives := lo_supportsAllDrives o;
     lo_corpora := lo_corpora o; lo_pageToken := tok |}.

(** [accumulatedFiles.concat(response.data.files)]: when [files] is
    missing, [concat] appends the single element [undefined] ([None]). *)
Definition concat_files (acc : list (option Schema_File)) (r : FileList)
  : list (option Schema_File) :=
  acc ++ match files r with
         | Some fs => map Some fs
         | None => [None]
         end.

(** The recursion follows [nextPageToken] for as long as the provider
    sends one; [fuel] bounds the number of further pages.  A [response]
    of [None] is the [undefined] the catch handler may hand over. *)
Fixpoint pagedFileList (fuel : nat) (drive : Drive) (options : ListOptions)
  (accumulatedFiles : list (option Schema_File)) (response : option FileList)
  : M (list (option Schema_File)) :=
  match response with
  | None => throw TypeError
  | Some r =>
      let mergedFiles := concat_files accumulatedFiles r in
      if truthy (nextPageToken r) then
        match fuel with
        | O => ([], Pending)
        | S fuel' =>
            let pageOptions := with_pageToken options (nextPageToken r) in
            let* next :=
              call (CallFilesList drive pageOptions)
                   (of_api (files_list w drive pageOptions)) in
            pagedFileList fuel' drive options mergedFiles (Some next)
        end
      else ret mergedFiles
  end.

(** The guard of the catch handler, as written:
    [reason.status !== 401 || reason.status !== 403]. *)
Definition fetch_guard (st : value) : bool :=
  strict_neq_num st 401 || strict_neq_num st 403.

Definition empty_file_list : FileList := {| files := Some []; nextPageToken := VUndef |}.

(** The handler attached to the first [drive.files.list]; without a
    [return] the second branch yields [undefined]. *)
Definition list_catch (request : ActionRequest) (reason : value)
  : M (option FileList) :=
  let* st := read reason "status" in
  if fetch_guard st then
    emit (Log "info" "No folders found" (webhookId request)) ;;
    ret (Some empty_file_list)
  else
    emit (Log "info" ("status fetch: " +:+ str_of w st +:+ ", cannot fetch folders")
              (webhookId request)) ;;
    ret None.

(** [filter] then [map] over the listed files; reading [id] of an
    [undefined] element raises. *)
Fixpoint folder_options (fs : list (option Schema_File)) : M (list FieldOption) :=
  match fs with
  | [] => ret []
  | None :: _ => throw TypeError
  | Some f :: rest =>
      let* tl := folder_options rest in
      if is_defined (file_id f) && is_defined (file_name f) then
        ret ({| opt_name := file_id f; opt_label := file_name f |} :: tl)
      else ret tl
  end.

Definition drive_root : FieldOption :=
  {| opt_name := VStr "root"; opt_label := VStr "Drive Root" |}.

(** [selections[0].name]. *)
Definition first_name (selections : list FieldOption) : M value :=
  match selections with
  | o :: _ => ret (opt_name o)
  | [] => throw TypeError
  end.

Definition drive_field (driveSelections : list FieldOption) (dflt : value)
  : ActionFormField :=
  {| name := "drive";
     label := "Select Drive to save file";
     description := Some "Google Drive where your file will be saved";
     type := "select";
     required := Some true;
     interactive := Some true;
     options := Some driveSelections;
     default := Some dflt;
     oauth_url := None |}.

Definition folder_field (folders : list FieldOption) (dflt : value)
  : ActionFormField :=
  {| name := "folder";
     label := "Select folder to save file";
     description := Some "Google Drive folder where your file will be saved";
     type := "select";
     required := Some true;
     interactive := None;
     options := Some folders;
     default := Some dflt;
     oauth_url := None |}.

Definition filename_field : ActionFormField :=
  {| name := "filename"; label := "Enter a name"; description := None;
     type := "string"; required := Some true; interactive := None;
     options := None; default := None; oauth_url := None |}.

Definition dq : string := String (Ascii.ascii_of_nat 34) EmptyString.

Definition fetch_field : ActionFormField :=
  {| name := "fetch";
     label := "Fetch Folders";
     description :=
       Some ("After entering text to search below, select "
             +:+ dq +:+ "Fetch Folders" +:+ dq);
     type := "select";
     required := Some true;
     interactive := Some true;
     options :=
       Some [ {| opt_name := VStr "reset"; opt_label := VStr "Reset" |};
              {| opt_name := VStr "fetch"; opt_label := VStr "Fetch Folders" |} ];
     default := None;
     oauth_url := None |}.

Definition search_field : ActionFormField :=
  {| name := "search"; label := "Folder Name Search"; description := None;
     type := "string"; required := Some true; interactive := None;
     options := None; default := None; oauth_url := None |}.

(** The state blob echoed to the caller. *)
Definition echoed_state (tokens redirect : value) : ActionState :=
  {| data := Some (JSON_stringify w (VObj [("tokens", tokens); ("redirect", redirect)])) |}.

(** The fields added when [formParams.search] is present. *)
Definition folder_fields (fuel : nat) (request : ActionRequest) (drive : Drive)
  (search : string) : M (list ActionFormField) :=
  let options := list_options request search in
  let* first :=
    catch
      (let* r := call (CallFilesList drive options)
                      (of_api (files_list w drive options)) in
       ret (Some r))
      (list_catch request) in
  let* paginatedFiles := pagedFileList fuel drive options [] first in
  let* listed := folder_options paginatedFiles in
  let folders := drive_root :: listed in
  let* dflt := first_name folders in
  ret [folder_field folders dflt; filename_field].

Definition loginForm (request : ActionRequest) : M ActionForm :=
  let jsonString :=
    JSON_stringify w (VObj [("stateurl", of_opt (params request !! "state_url"))]) in
  let* ciphertextBlob :=
    catch
      (call (CallEncrypt jsonString) (crypto_encrypt w jsonString))
      (fun err =>
         emit (Log "error" "Encryption not correctly configured" None) ;;
         throw err) in
  let url :=
    env_str w "ACTION_HUB_BASE_URL" +:+ "/actions/" +:+ action_name
    +:+ "/oauth?state=" +:+ ciphertextBlob in
  emit (Log "debug" ("Login form, OAuthURL" +:+ url) None) ;;
  ret {| fields :=
           [ {| name := "login";
                label := "Log in";
                description :=
                  Some ("In order to send to Google Drive, you will need to log in"
                        +:+ " once to your Google account.");
                type := "oauth_link_google";
                required := None;
                interactive := None;
                options := None;
                default := None;
                oauth_url := Some url |} ];
         state := Some new_ActionState |}.

(** The body of the [try] block of [form]: [Some] form when it returns
    from inside the block, [None] when control falls through. *)
Definition form_authorized (fuel : nat) (request : ActionRequest) (state_json : string)
  : M (option ActionForm) :=
  let* stateJson := parse w state_json in
  let* tokens := read stateJson "tokens" in
  let* redirect := (if truthy tokens then read stateJson "redirect" else ret VUndef) in
  if truthy tokens && truthy redirect then
    let* drive := driveClientFromRequest redirect tokens in
    let* driveSelections := getDrives drive in
    let* dflt := first_name driveSelections in
    let fields0 := [drive_field driveSelections dflt] in
    let* fields1 :=
      match formParams request !! "search" with
      | Some search =>
          let* fs := folder_fields fuel request drive search in
          ret (fields0 ++ fs)
      | None => ret fields0
      end in
    ret (Some {| fields := fields1 ++ [fetch_field; search_field];
                 state := Some (echoed_state tokens redirect) |})
  else ret None.

Definition form (fuel : nat) (request : ActionRequest) : M ActionForm :=
  let* built :=
    match params request !! "state_json" with
    | Some state_json =>
        if truthy (VStr state_json) then
          catch
            (form_authorized fuel request state_json)
            (fun e =>
               let* e' := sanitizeGaxiosError e in
               emit (Log "warn" ("Error fetching form. " +:+ to_string w e')
                         (webhookId request)) ;;
               ret None)
        else ret None
    | None => ret None
    end in
  match built with
  | Some f => ret f
  | None => loginForm request
  end.

(** *** OAuth *)

Definition oauthUrl (redirectUri : string) (encryptedState : string) : M string :=
  let oauth2Client := oauth2Client (VStr redirectUri) in
  emit (Log "info" redirectUri None) ;;
  let scopes := ["https://www.googleapis.com/auth/drive"] in
  let url :=
    generateAuthUrl w oauth2Client
      {| access_type := "offline"; scope := scopes; prompt := "consent";
         auth_state := encryptedState |} in
  ret url.

Definition oauthFetchInfo (urlParams : gmap string string) (redirectUri : string)
  : M unit :=
  let blob := of_opt (urlParams !! "state") in
  let* plaintext :=
    catch
      (call (CallDecrypt blob) (crypto_decrypt w blob))
      (fun err =>
         emit (Log "error" ("Encryption not correctly configured" +:+ str_of w err) None) ;;
         throw err) in
  let* tokens :=
    getAccessTokenCredentialsFromCode redirectUri (of_opt (urlParams !! "code")) in
  let* payload := parse w plaintext in
  let* stateurl := read payload "stateurl" in
  let body :=
    JSON_stringify w (VObj [("tokens", tokens); ("redirect", VStr redirectUri)]) in
  catch
    (call (CallPost stateurl body) (of_api (https_post w stateurl body)))
    (fun _err => emit (Log "error" (to_string w _err) None)).

(** The options of the probe: [{pageSize: 10}]. *)
Definition probe : ListOptions :=
  {| lo_fields := None; lo_orderBy := None; lo_pageSize := 10;
     lo_q := None; lo_spaces := None; lo_driveId := None;
     lo_includeItemsFromAllDrives := None; lo_supportsAllDrives := None;
     lo_corpora := None; lo_pageToken := VUndef |}.

Definition oauthCheck (request : ActionRequest) : M bool :=
  match params request !! "state_json" with
  | Some state_json =>
      if truthy (VStr state_json) then
        let* stateJson := parse w state_json in
        let* tokens := read stateJson "tokens" in
        let* redirect := (if truthy tokens then read stateJson "redirect" else ret VUndef) in
        if truthy tokens && truthy redirect then
          let* drive := driveClientFromRequest redirect tokens in
          call (CallFilesList drive probe) (of_api (files_list w drive probe)) ;;
          ret true
        else ret false
      else ret false
  | None => ret false
  end.

End Methods.

End GoogleDriveAction.

(** ** The SFTP action *)

Module SFTPAction.

(** What the executor handed to [new Promise] did to its promise. *)
Inductive settled : Type :=
| DidResolve (r : ActionResponse)
| DidReject (reason : value).

(** [new Promise(async (resolve, reject) => ...)]: the promise settles
    only through [resolve] or [reject]; an executor that raises, being
    [async], leaves it pending. *)
Definition new_Promise (executor : M settled) : M ActionResponse :=
  match executor with
  | (t, Resolved (DidResolve r)) => (t, Resolved r)
  | (t, Resolved (DidReject v)) => (t, Rejected v)
  | (t, _) => (t, Pending)
  end.

Section Methods.

Variable w : World.

(** [new URL(request.formParams.address)]; an [undefined] address is no
    URL either. *)
Definition address_url (request : ActionRequest) : M URL :=
  match formParams request !! "address" with
  | Some address =>
      match parse_url w address with
      | Some u => ret u
      | None => throw TypeError
      end
  | None => throw TypeError
  end.

(** The client is the connection it was opened with. *)
Definition sftpClientFromRequest (request : ActionRequest) : M ConnectOptions :=
  let* parsedUrl := address_url request in
  if negb (truthy (VStr (hostname parsedUrl))) then
    throw (VStr "Needs a valid SFTP address. [3]")
  else
    let o :=
      {| host := hostname parsedUrl;
         username := formParams request !! "username";
         password := formParams request !! "password";
         port := if truthy (VStr (url_port parsedUrl))
                 then to_number w (url_port parsedUrl) else 22 |} in
    catch (call (CallSftpConnect o) (sftp_connect w o)) (fun e => throw e) ;;
    ret o.

Definition has_data (request : ActionRequest) : option (list Byte.byte) :=
  match attachment request with
  | Some a => dataBuffer a
  | None => None
  end.

Definition failed (msg : value) : ActionResponse :=
  {| success := false; resp_message := msg; resp_state := None;
     resp_error := None; resp_webhookId := None |}.

Definition executor (request : ActionRequest) : M settled :=
  match has_data request with
  | None => ret (DidReject (VStr "Couldn't get data from attachment."))
  | Some payload =>
      emit (Log "console" "pushkar ------ request.formParams: " None) ;;
      if negb (truthy_str (formParams request !! "address")) then
        ret (DidReject (VStr "Needs a valid SFTP address. [1]"))
      else
        let* client := sftpClientFromRequest request in
        let* parsedUrl := address_url request in
        if negb (truthy (VStr (pathname parsedUrl))) then
          throw (VStr "Needs a valid SFTP address. [2]")
        else
          let fileName :=
            GoogleDriveAction.or_else (formParams request !! "filename")
                                      (suggestedFilename w request) in
          match fileName with
          | None => throw TypeError
          | Some fileName =>
              let remotePath := path_join w (pathname parsedUrl) fileName in
              catch
                (call (CallSftpPut payload remotePath)
                      (of_api (sftp_put w payload remotePath)) ;;
                 ret (DidResolve new_ActionResponse))
                (fun err =>
                   let* m := read err "message" in
                   ret (DidResolve (failed m)))
          end
  end.

Definition execute (request : ActionRequest) : M ActionResponse :=
  emit (Log "console" "pushkar ------ request: " None) ;;
  new_Promise (executor request).

Definition text_field (n l : string) (d : option string) (r : option bool)
  : ActionFormField :=
  {| name := n; label := l; description := d; type := "string"; required := r;
     interactive := None; options := None; default := None; oauth_url := None |}.

Definition form : M ActionForm :=
  ret {| fields :=
           [ text_field "address" "Address" (Some "e.g. sftp://host/path/") (Some true);
             text_field "username" "Username" None (Some true);
             text_field "password" "Password" None (Some true);
             text_field "filename" "Filename" None None ];
         state := None |}.

End Methods.

End SFTPAction.

(** ** A concrete world for closed examples *)

Module Sample.

Fixpoint join (sep : string) (l : list string) : string :=
  match l with
  | [] => ""
  | [x] => x
  | x :: rest => x +:+ sep +:+ join sep rest
  end.

Definition quoted (s : string) : string :=
  GoogleDriveAction.dq +:+ s +:+ GoogleDriveAction.dq.

(** [JSON.stringify] on values whose strings need no escaping: properties
    holding [undefined] are left out, [undefined] in an array prints as
    [null]. *)
Fixpoint stringify (v : value) : string :=
  match v with
  | VUndef | VNull => "null"
  | VBool b => if b then "true" else "false"
  | VNum n => pretty n
  | VStr s => quoted s
  | VArr items => "[" +:+ join "," (map stringify items) +:+ "]"
  | VObj props =>
      "{" +:+ join ","
                (omap (fun p =>
                         match p with
                         | (k, x) =>
                             if is_defined x
                             then Some (quoted k +:+ ":" +:+ stringify x)
                             else None
                         end) props)
          +:+ "}"
  end.

(** [JSON.parse] on the documents of the examples: the inverse of
    [stringify] over a given list of values. *)
Definition parse_among (known : list value) (s : string) : option value :=
  List.find (fun v => String.eqb (stringify v) s) known.

Definition tokens : value :=
  VObj [("access_token", VStr "ya29.a0"); ("refresh_token", VStr "1//0g")].

Definition hub_redirect : string := "https://hub.example/actions/google_drive/oauth_redirect".

Definition state_url : string := "https://looker.example/action_hub_state/abc".

(** A continuation state as [oauthFetchInfo] posts it. *)
Definition usable_state : value :=
  VObj [("tokens", tokens); ("redirect", VStr hub_redirect)].

(** A continuation state whose [redirect] was lost. *)
Definition partial_state : value := VObj [("tokens", tokens)].

(** The payload [loginForm] encrypts. *)
Definition login_payload : value := VObj [("stateurl", VStr state_url)].

Definition documents : list value :=
  [VNull; usable_state; partial_state; login_payload].

(** A toy codec: the ciphertext is the plaintext behind a key tag. *)
Definition key_tag : string := "k1:".

Definition encrypt (plaintext : string) : outcome string :=
  Resolved (key_tag +:+ plaintext).

Definition decrypt (blob : value) : outcome string :=
  match blob with
  | VStr s =>
      if String.prefix key_tag s
      then Resolved (String.substring 3 (String.length s - 3) s)
      else Rejected (VStr "Unsupported state or unable to authenticate data")
  | _ => Rejected (VStr "Unsupported state or unable to authenticate data")
  end.

Definition unauthorized : list (string * value) :=
  [("status", VNum 401); ("message", VStr "Invalid Credentials")].

Definition shared_drives : DriveList :=
  {| drives := Some [ {| drive_id := VStr "0AB"; drive_name := VStr "Team" |} ] |}.

Definition one_page : FileList :=
  {| files := Some [ {| file_id := VStr "f1"; file_name := VStr "Reports" |} ];
     nextPageToken := VUndef |}.

(** A world in which the provider answers every Drive call as given. *)
Definition world (listing : api_outcome DriveList) (page : api_outcome FileList)
  : World :=
  {| env := fun k =>
       if String.eqb k "ACTION_HUB_BASE_URL" then Some "https://hub.example"
       else if String.eqb k "GOOGLE_DRIVE_CLIENT_ID" then Some "client-id"
       else if String.eqb k "GOOGLE_DRIVE_CLIENT_SECRET" then Some "client-secret"
       else None;
     JSON_parse := parse_among documents;
     JSON_stringify := stringify;
     to_string := stringify;
     crypto_encrypt := encrypt;
     crypto_decrypt := decrypt;
     generateAuthUrl := fun c o =>
       "https://accounts.google.com/o/oauth2/v2/auth?state=" +:+ auth_state o;
     getToken := fun _ authcode =>
       match authcode with
       | VStr "4/0Ab" => ApiOk tokens
       | _ => ApiErr [("message", VStr "invalid_grant")]
       end;
     https_post := fun _ _ => ApiOk tt;
     drives_list := fun _ _ => listing;
     files_list := fun _ _ => page;
     files_create := fun _ _ => ApiOk tt;
     suggestedFilename := fun _ => Some "export.csv";
     errorWith := fun e msg =>
       {| http_code := VNum (code e); status_code := status e;
          message := err_description e +:+ " " +:+ msg;
          location := "ActionContainer"; documentation_url := "TODO" |};
     HTTP_ERROR_bad_request :=
       {| code := 400; status := "BAD_REQUEST"; err_description := "Bad Request" |};
     HTTP_ERROR_internal :=
       {| code := 500; status := "INTERNAL"; err_description := "Internal Error" |};
     parse_url := fun s =>
       if String.eqb s "sftp://files.example/upload/"
       then Some {| hostname := "files.example"; pathname := "/upload/";
                    url_port := "" |}
       else None;
     path_join := fun a b =>
       if String.eqb (String.substring (String.length a - 1) 1 a) "/"
       then a +:+ b else a +:+ "/" +:+ b;
     to_number := fun _ => 22;
     sftp_connect := fun _ => Resolved tt;
     sftp_put := fun _ _ => ApiOk tt |}.

(** The provider accepts the tokens. *)
Definition granted : World := world (ApiOk shared_drives) (ApiOk one_page).

(** The provider has revoked them. *)
Definition revoked : World := world (ApiErr unauthorized) (ApiErr unauthorized).

Definition request_with (ps fps : list (string * string)) (wh : option string)
  : ActionRequest :=
  {| params := list_to_map ps; formParams := list_to_map fps;
     attachment := Some {| dataBuffer := Some []; mime := None |};
     webhookId := wh |}.

(** A request echoing a usable continuation state. *)
Definition authorized (fps : list (string * string)) (wh : option string)
  : ActionRequest :=
  request_with [("state_json", stringify usable_state)] fps wh.

(** The state [loginForm] issues, and the same payload under another key. *)
Definition issued_state : string := key_tag +:+ stringify login_payload.
Definition foreign_state : string := "k2:" +:+ stringify login_payload.

(** The query string of the provider's redirect. *)
Definition callback (st : string) : gmap string string :=
  list_to_map [("state", st); ("code", "4/0Ab")].

Definition this : GoogleDriveAction.t := {| GoogleDriveAction.mimeType := None |}.

(** A request that lost its attachment. *)
Definition without_attachment (fps : list (string * string)) : ActionRequest :=
  {| params := ∅; formParams := list_to_map fps; attachment := None;
     webhookId := None |}.

End Sample.

(** ** What a run lets the outside see *)

(** External calls, as opposed to log lines. *)
Definition is_call (e : event) : bool :=
  match e with
  | Log _ _ _ => false
  | _ => true
  end.

Definition calls (t : list event) : list event := List.filter is_call t.

(** A log line without its correlation id. *)
Definition anonymous (e : event) : event :=
  match e with
  | Log level msg _ => Log level msg None
  | _ => e
  end.

(** Two runs that settle alike after the same calls and the same log
    messages; only the correlation id on the log lines may differ. *)
Definition same_run {A} (m1 m2 : M A) : Prop :=
  result m1 = result m2 /\ map anonymous (events m1) = map anonymous (events m2).

(** The continuation state a request carries, when it is usable:
    [state_json] is present and not empty, and parses to a value whose
    [tokens] and [redirect] are both truthy. *)
Definition continuation (w : World) (request : ActionRequest)
  : option (value * value) :=
  match params request !! "state_json" with
  | Some state_json =>
      if truthy (VStr state_json) then
        match JSON_parse w state_json with
        | Some stateJson =>
            match get stateJson "tokens", get stateJson "redirect" with
            | Some tokens, Some redirect =>
                if truthy tokens && truthy redirect
                then Some (tokens, redirect) else None
            | _, _ => None
            end
        | None => None
        end
      else None
  | None => None
  end.

(** The client [driveClientFromRequest] rebuilds from such a state. *)
Definition client_of (w : World) (redirect tokens : value) : Drive :=
  GoogleDriveAction.google_drive
    (GoogleDriveAction.setCredentials (GoogleDriveAction.oauth2Client w redirect) tokens).

(** The options [getDrives] derives from the provider's answer. *)
Definition shared_options (dl : DriveList) : list FieldOption :=
  match drives dl with
  | Some ds => map GoogleDriveAction.drive_option ds
  | None => []
  end.

(** The trace [oauthFetchInfo] leaves after the POST, by its answer. *)
Definition after_post (w : World) (r : api_outcome unit) : M unit :=
  match r with
  | ApiOk _ => ([], Resolved tt)
  | ApiErr ps => ([Log "error" (to_string w (VObj ps)) None], Resolved tt)
  | ApiHang => ([], Pending)
  end.

(** ** Vocabulary of the further properties *)

(** A secret slot of a request configuration that holds nothing to leak:
    unset, or the redaction mark. *)
Definition scrubbed_prop (v : value) : bool :=
  match v with
  | VStr s => String.eqb s "[REDACTED]" || String.eqb s ""
  | _ => negb (truthy v)
  end.

(** A request configuration whose [data] and [body] are both scrubbed. *)
Definition scrubbed (config : value) : bool :=
  match config with
  | VObj ps => scrubbed_prop (assoc "data" ps) && scrubbed_prop (assoc "body" ps)
  | _ => true
  end.

(** A computation that, when it rejects, rejects with an object. *)
Definition throws_objects {A} (m : M A) : Prop :=
  forall e, result m = Rejected e -> exists ps, e = VObj ps.

(** The pages a listing is served after its first one: each page names
    the next through its token, and the last carries none. *)
Inductive listing (w : World) (drive : Drive) (options : ListOptions)
  : FileList -> list FileList -> Prop :=
| listing_last (r : FileList) :
    truthy (nextPageToken r) = false ->
    listing w drive options r []
| listing_next (r next : FileList) (rest : list FileList) :
    truthy (nextPageToken r) = true ->
    files_list w drive
      (GoogleDriveAction.with_pageToken options (nextPageToken r)) = ApiOk next ->
    listing w drive options next rest ->
    listing w drive options r (next :: rest).

(** The calls that fetch those pages. *)
Fixpoint page_calls (drive : Drive) (options : ListOptions) (first : FileList)
  (rest : list FileList) : list event :=
  match rest with
  | [] => []
  | next :: rest' =>
      CallFilesList drive
        (GoogleDriveAction.with_pageToken options (nextPageToken first))
      :: page_calls drive options next rest'
  end.

(** The files of a run of pages, in the order served. *)
Definition collected (acc : list (option Schema_File)) (pages : list FileList)
  : list (option Schema_File) :=
  fold_left GoogleDriveAction.concat_files pages acc.

(** The folders a listing lets the user choose from: the files that
    have both an id and a name. *)
Definition selectable (fs : list Schema_File) : list FieldOption :=
  map (fun f => {| opt_name := file_id f; opt_label := file_name f |})
      (List.filter (fun f => is_defined (file_id f) && is_defined (file_name f)) fs).

(** The plaintext [loginForm] hands to the codec. *)
Definition login_plaintext (w : World) (request : ActionRequest) : string :=
  JSON_stringify w (VObj [("stateurl", of_opt (params request !! "state_url"))]).

(** The file name [execute] settles on, in both actions. *)
Definition chosen_filename (w : World) (request : ActionRequest) : option string :=
  GoogleDriveAction.or_else (formParams request !! "filename")
                            (suggestedFilename w request).

(** The [driveParams] that [sendData] hands to [drive.files.create]. *)
Definition upload_params (this : GoogleDriveAction.t) (filename : string)
  (request : ActionRequest) : CreateParams :=
  let fileMetadata :=
    {| fm_name := filename;
       fm_mimeType := GoogleDriveAction.getMimeType this request;
       fm_parents :=
         (if truthy_str (formParams request !! "folder")
          then option_map (fun f => [f]) (formParams request !! "folder")
          else None);
       fm_driveId := None |} in
  match formParams request !! "drive" with
  | Some d =>
      if negb (String.eqb d "mydrive") then
        {| requestBody :=
             {| fm_name := fm_name fileMetadata;
                fm_mimeType := fm_mimeType fileMetadata;
                fm_parents := fm_parents fileMetadata;
                fm_driveId := Some d |};
           cp_supportsAllDrives := Some true |}
      else {| requestBody := fileMetadata; cp_supportsAllDrives := None |}
  | None => {| requestBody := fileMetadata; cp_supportsAllDrives := None |}
  end.

(** The connection the SFTP action opens for an address parsed as [u]:
    port 22 unless the address names one. *)
Definition connection (w : World) (request : ActionRequest) (u : URL)
  : ConnectOptions :=
  {| host := hostname u;
     username := formParams request !! "username";
     password := formParams request !! "password";
     port := if truthy (VStr (url_port u)) then to_number w (url_port u) else 22 |}.

(** Worlds that differ from a given one in a single oracle. *)
Module Fixtures.

Definition with_files_list (w : World)
  (fl : Drive -> ListOptions -> api_outcome FileList) : World :=
  {| env := env w; JSON_parse := JSON_parse w; JSON_stringify := JSON_stringify w;
     to_string := to_string w; crypto_encrypt := crypto_encrypt w;
     crypto_decrypt := crypto_decrypt w; generateAuthUrl := generateAuthUrl w;
     getToken := getToken w; https_post := https_post w;
     drives_list := drives_list w; files_list := fl;
     files_create := files_create w; suggestedFilename := suggestedFilename w;
     errorWith := errorWith w; HTTP_ERROR_bad_request := HTTP_ERROR_bad_request w;
     HTTP_ERROR_internal := HTTP_ERROR_internal w; parse_url := parse_url w;
     path_join := path_join w; to_number := to_number w;
     sftp_connect := sftp_connect w; sftp_put := sftp_put w |}.

Definition with_files_create (w : World)
  (fc : Drive -> CreateParams -> api_outcome unit) : World :=
  {| env := env w; JSON_parse := JSON_parse w; JSON_stringify := JSON_stringify w;
     to_string := to_string w; crypto_encrypt := crypto_encrypt w;
     crypto_decrypt := crypto_decrypt w; generateAuthUrl := generateAuthUrl w;
     getToken := getToken w; https_post := https_post w;
     drives_list := drives_list w; files_list := files_list w;
     files_create := fc; suggestedFilename := suggestedFilename w;
     errorWith := errorWith w; HTTP_ERROR_bad_request := HTTP_ERROR_bad_request w;
     HTTP_ERROR_internal := HTTP_ERROR_internal w; parse_url := parse_url w;
     path_join := path_join w; to_number := to_number w;
     sftp_connect := sftp_connect w; sftp_put := sftp_put w |}.

Definition with_suggestedFilename (w : World)
  (sf : ActionRequest -> option string) : World :=
  {| env := env w; JSON_parse := JSON_parse w; JSON_stringify := JSON_stringify w;
     to_string := to_string w; crypto_encrypt := crypto_encrypt w;
     crypto_decrypt := crypto_decrypt w; generateAuthUrl := generateAuthUrl w;
     getToken := getToken w; https_post := https_post w;
     drives_list := drives_list w; files_list := files_list w;
     files_create := files_create w; suggestedFilename := sf;
     errorWith := errorWith w; HTTP_ERROR_bad_request := HTTP_ERROR_bad_request w;
     HTTP_ERROR_internal := HTTP_ERROR_internal w; parse_url := parse_url w;
     path_join := path_join w; to_number := to_number w;
     sftp_connect := sftp_connect w; sftp_put := sftp_put w |}.

Definition with_sftp (w : World) (connect : ConnectOptions -> outcome unit)
  (put : list Byte.byte -> string -> api_outcome unit) : World :=
  {| env := env w; JSON_parse := JSON_parse w; JSON_stringify := JSON_stringify w;
     to_string := to_string w; crypto_encrypt := crypto_encrypt w;
     crypto_decrypt := crypto_decrypt w; generateAuthUrl := generateAuthUrl w;
     getToken := getToken w; https_post := https_post w;
     drives_list := drives_list w; files_list := files_list w;
     files_create := files_create w; suggestedFilename := suggestedFilename w;
     errorWith := errorWith w; HTTP_ERROR_bad_request := HTTP_ERROR_bad_request w;
     HTTP_ERROR_internal := HTTP_ERROR_internal w; parse_url := parse_url w;
     path_join := path_join w; to_number := to_number w;
     sftp_connect := connect; sftp_put := put |}.


Definition page_one : FileList :=
  {| files := Some [ {| file_id := VStr "f1"; file_name := VStr "Reports" |};
                     {| file_id := VStr "f2"; file_name := VUndef |} ];
     nextPageToken := VStr "page-2" |}.

Definition page_two : FileList :=
  {| files := Some [ {| file_id := VStr "f3"; file_name := VStr "Archive" |} ];
     nextPageToken := VUndef |}.

(** A provider that serves two pages. *)
Definition two_pages : World :=
  with_files_list Sample.granted
    (fun _ o => match lo_pageToken o with
                | VStr "page-2" => ApiOk page_two
                | _ => ApiOk page_one
                end).

(** A provider that names a next page with every page. *)
Definition endless : World :=
  with_files_list Sample.granted (fun _ _ => ApiOk page_one).

(** A provider that refuses the upload. *)
Definition quota_exceeded : list (string * value) :=
  [("message", VStr "The user's Drive storage quota has been exceeded.");
   ("code", VNum 403);
   ("reason", VStr "storageQuotaExceeded");
   ("config", VObj [("url", VStr "https://www.googleapis.com/upload/drive/v3/files");
                    ("body", VStr "raw upload");
                    ("data", VStr "raw data")])].

Definition full_drive : World :=
  with_files_create Sample.granted (fun _ _ => ApiErr quota_exceeded).

(** A hub that cannot name the file. *)
Definition nameless : World :=
  with_suggestedFilename Sample.granted (fun _ => None).

(** An SFTP server that refuses the connection, and one that refuses
    the file. *)
Definition unreachable : World :=
  with_sftp Sample.granted
    (fun _ => Rejected (VObj [("message", VStr "connect ECONNREFUSED")]))
    (fun _ _ => ApiOk tt).

Definition read_only : World :=
  with_sftp Sample.granted
    (fun _ => Resolved tt)
    (fun _ _ => ApiErr [("message", VStr "Permission denied")]).


Definition sftp_request : ActionRequest :=
  Sample.request_with [] [("address", "sftp://files.example/upload/")] None.

End Fixtures.

(** ** The promise monad *)

Section MonadFacts.

Context {A B : Type}.

Lemma bind_ret (a : A) (k : A -> M B) : bind (ret a) k = k a.
Proof. unfold bind, ret. destruct (k a); reflexivity. Qed.

Lemma bind_throw (r : value) (k : A -> M B) : bind (throw r) k = throw r.
Proof. reflexivity. Qed.

Lemma bind_call_resolved (e : event) (a : A) (k : A -> M B) :
  bind (call e (Resolved a)) k = (e :: events (k a), result (k a)).
Proof. unfold bind, call. destruct (k a); reflexivity. Qed.

Lemma bind_call_rejected (e : event) (r : value) (k : A -> M B) :
  bind (call e (Rejected r)) k = ([e], Rejected r).
Proof. reflexivity. Qed.

Lemma bind_emit (e : event) (k : unit -> M B) :
  bind (emit e) k = (e :: events (k tt), result (k tt)).
Proof. unfold bind, emit. destruct (k tt); reflexivity. Qed.

Lemma result_bind (m : M A) (k : A -> M B) :
  result (bind m k) =
  match result m with
  | Resolved a => result (k a)
  | Rejected r => Rejected r
  | Pending => Pending
  end.
Proof. destruct m as [t [a|r|]]; simpl; try reflexivity. destruct (k a); reflexivity. Qed.

Lemma events_bind (m : M A) (k : A -> M B) :
  events (bind m k) =
  match result m with
  | Resolved a => events m ++ events (k a)
  | _ => events m
  end.
Proof. destruct m as [t [a|r|]]; simpl; try reflexivity. destruct (k a); reflexivity. Qed.

Lemma result_catch (m : M A) (h : value -> M A) :
  result (catch m h) =
  match result m with
  | Rejected r => result (h r)
  | o => o
  end.
Proof. destruct m as [t [a|r|]]; simpl; try reflexivity. destruct (h r); reflexivity. Qed.

Lemma events_catch (m : M A) (h : value -> M A) :
  events (catch m h) =
  match result m with
  | Rejected r => events m ++ events (h r)
  | _ => events m
  end.
Proof. destruct m as [t [a|r|]]; simpl; try reflexivity. destruct (h r); reflexivity. Qed.

Lemma bind_resolved_inv (m : M A) (k : A -> M B) (b : B) :
  result (bind m k) = Resolved b ->
  exists a, result m = Resolved a /\ result (k a) = Resolved b.
Proof.
  rewrite result_bind. destruct (result m) as [a|r|]; try discriminate.
  intros H. exists a. split; [reflexivity | exact H].
Qed.

End MonadFacts.

Lemma catch_resolved_inv {A} (m : M A) (h : value -> M A) (a : A) :
  result (catch m h) = Resolved a ->
  result m = Resolved a \/ exists r, result m = Rejected r /\ result (h r) = Resolved a.
Proof.
  rewrite result_catch. destruct (result m) as [a'|r|]; try discriminate.
  - intros H. left. exact H.
  - intros H. right. exists r. split; [reflexivity | exact H].
Qed.

Lemma M_eta {A} (m : M A) : m = (events m, result m).
Proof. destruct m; reflexivity. Qed.

(** ** The OAuth flow *)

Module OAuthFlow.

Import GoogleDriveAction.

(** C1. When decryption of [urlParams.state] fails, [oauthFetchInfo]
    rejects with that very failure after logging it: the token exchange
    is never reached and nothing is posted back. *)
Theorem decrypt_failure_stops_flow (w : World) (urlParams : gmap string string)
    (redirectUri : string) (err : value) :
  crypto_decrypt w (of_opt (urlParams !! "state")) = Rejected err ->
  oauthFetchInfo w urlParams redirectUri =
    ([CallDecrypt (of_opt (urlParams !! "state"));
      Log "error" ("Encryption not correctly configured" +:+ str_of w err) None],
     Rejected err)
  /\ (forall c authcode,
        CallGetToken c authcode ∉ events (oauthFetchInfo w urlParams redirectUri))
  /\ (forall url body,
        CallPost url body ∉ events (oauthFetchInfo w urlParams redirectUri)).
Proof.
  intros Hdec.
  assert (Hrun : oauthFetchInfo w urlParams redirectUri =
    ([CallDecrypt (of_opt (urlParams !! "state"));
      Log "error" ("Encryption not correctly configured" +:+ str_of w err) None],
     Rejected err)).
  { unfold oauthFetchInfo. rewrite Hdec. reflexivity. }
  rewrite Hrun. split; [reflexivity|]. simpl.
  split; intros; rewrite !elem_of_cons, elem_of_nil; intros [|[|[]]]; discriminate.
Qed.

Lemma decrypt_failure_witness :
  crypto_decrypt Sample.granted
    (of_opt (Sample.callback Sample.foreign_state !! "state"))
  = Rejected (VStr "Unsupported state or unable to authenticate data")
  /\ result (oauthFetchInfo Sample.granted (Sample.callback Sample.foreign_state)
                            Sample.hub_redirect)
     = Rejected (VStr "Unsupported state or unable to authenticate data").
Proof.
  split; [vm_compute; reflexivity|].
  destruct (decrypt_failure_stops_flow Sample.granted
              (Sample.callback Sample.foreign_state) Sample.hub_redirect
              (VStr "Unsupported state or unable to authenticate data")) as [H _].
  - vm_compute; reflexivity.
  - rewrite H. reflexivity.
Defined.

(** C2. The happy path: [oauthUrl] hands the encrypted state to the
    provider's URL builder as the [state] parameter; and when that state
    comes back with a code the provider accepts, [oauthFetchInfo] decrypts
    it, exchanges the code, and posts [{tokens, redirect}] to the
    [stateurl] found in the decrypted payload. *)
Theorem oauth_happy_path (w : World) (redirectUri encryptedState authcode : string)
    (urlParams : gmap string string) (plaintext : string)
    (payload : list (string * value)) (tokens : value) :
  urlParams !! "state" = Some encryptedState ->
  urlParams !! "code" = Some authcode ->
  crypto_decrypt w (VStr encryptedState) = Resolved plaintext ->
  JSON_parse w plaintext = Some (VObj payload) ->
  getToken w (oauth2Client w (VStr redirectUri)) (VStr authcode) = ApiOk tokens ->
  let returnUrl := assoc "stateurl" payload in
  let body :=
    JSON_stringify w (VObj [("tokens", tokens); ("redirect", VStr redirectUri)]) in
  result (oauthUrl w redirectUri encryptedState) =
    Resolved (generateAuthUrl w (oauth2Client w (VStr redirectUri))
                {| access_type := "offline";
                   scope := ["https://www.googleapis.com/auth/drive"];
                   prompt := "consent";
                   auth_state := encryptedState |})
  /\ events (oauthFetchInfo w urlParams redirectUri) =
       [CallDecrypt (VStr encryptedState);
        CallGetToken (oauth2Client w (VStr redirectUri)) (VStr authcode);
        CallPost returnUrl body]
       ++ events (after_post w (https_post w returnUrl body))
  /\ result (oauthFetchInfo w urlParams redirectUri) =
       result (after_post w (https_post w returnUrl body)).
Proof.
  intros Hst Hcode Hdec Hparse Htok returnUrl body.
  split; [reflexivity|].
  unfold oauthFetchInfo, getAccessTokenCredentialsFromCode, parse.
  rewrite Hst, Hcode. simpl of_opt. rewrite Hdec. simpl. rewrite Htok. simpl.
  rewrite Hparse. simpl. unfold returnUrl, body.
  destruct (https_post w _ _) as [[]|ps|]; split; reflexivity.
Qed.

Lemma oauth_happy_path_witness :
  events (oauthFetchInfo Sample.granted (Sample.callback Sample.issued_state)
                         Sample.hub_redirect)
  = [CallDecrypt (VStr Sample.issued_state);
     CallGetToken (oauth2Client Sample.granted (VStr Sample.hub_redirect))
                  (VStr "4/0Ab");
     CallPost (VStr Sample.state_url) (Sample.stringify Sample.usable_state)].
Proof.
  destruct (oauth_happy_path Sample.granted Sample.hub_redirect Sample.issued_state
              "4/0Ab" (Sample.callback Sample.issued_state)
              (Sample.stringify Sample.login_payload)
              [("stateurl", VStr Sample.state_url)] Sample.tokens)
    as (_ & Hev & _).
  - vm_compute; reflexivity.
  - vm_compute; reflexivity.
  - vm_compute; reflexivity.
  - vm_compute; reflexivity.
  - vm_compute; reflexivity.
  - rewrite Hev. vm_compute; reflexivity.
Defined.

End OAuthFlow.

(** ** Requests that carry, or lack, a continuation state *)

Lemma continuation_usable (w : World) (request : ActionRequest)
    (tokens redirect : value) :
  continuation w request = Some (tokens, redirect) ->
  exists state_json stateJson,
    params request !! "state_json" = Some state_json
    /\ truthy (VStr state_json) = true
    /\ JSON_parse w state_json = Some stateJson
    /\ get stateJson "tokens" = Some tokens
    /\ get stateJson "redirect" = Some redirect
    /\ truthy tokens = true
    /\ truthy redirect = true.
Proof.
  unfold continuation. intros H.
  destruct (params request !! "state_json") as [sj|] eqn:Hp; [|discriminate].
  destruct (truthy (VStr sj)) eqn:Hne; [|discriminate].
  destruct (JSON_parse w sj) as [v|] eqn:Hj; [|discriminate].
  destruct (get v "tokens") as [t|] eqn:Hgt; [|discriminate].
  destruct (get v "redirect") as [r|] eqn:Hgr; [|discriminate].
  destruct (truthy t) eqn:Ht; [|discriminate].
  destruct (truthy r) eqn:Hr; [|discriminate].
  injection H as <- <-. exists sj, v. repeat split; assumption.
Qed.

(** Open a usable continuation state into its defining equations. *)
Ltac open_state H :=
  let sj := fresh "state_json" in
  let v := fresh "stateJson" in
  apply continuation_usable in H
    as (sj & v & ?Hparam & ?Hnonempty & ?Hjson & ?Htokens & ?Hredirect
        & ?Htruthy_t & ?Htruthy_r).

(** Run the common prologue of [execute], [form] and [oauthCheck]. *)
Ltac prologue :=
  unfold parse, read;
  repeat match goal with
    | H : params _ !! "state_json" = _ |- _ => rewrite H
    | H : truthy (VStr _) = _ |- _ => rewrite H
    | H : JSON_parse _ _ = _ |- _ => rewrite H
    end;
  rewrite ?bind_ret;
  repeat match goal with
    | H : get _ _ = _ |- _ => rewrite H
    | H : truthy _ = _ |- _ => rewrite H
    | |- _ => rewrite bind_ret
    end.

Module Authorization.

Import GoogleDriveAction.

(** C5, as the code has it. When the provider rejects the probe of a
    client rebuilt from a usable state, [oauthCheck] rejects with the
    provider's error: it resolves neither to [true] nor to [false], and
    no response carrying the reset sentinel is produced. *)
Theorem oauthCheck_rejection_propagates (w : World) (request : ActionRequest)
    (tokens redirect : value) (props : list (string * value)) :
  continuation w request = Some (tokens, redirect) ->
  files_list w (client_of w redirect tokens) probe = ApiErr props ->
  oauthCheck w request =
    ([CallFilesList (client_of w redirect tokens) probe], Rejected (VObj props)).
Proof.
  intros Hst Hlist. open_state Hst.
  unfold oauthCheck. prologue. cbn [andb].
  unfold driveClientFromRequest. rewrite bind_ret.
  fold (client_of w redirect tokens). rewrite Hlist. reflexivity.
Qed.

Lemma oauthCheck_rejection_witness :
  result (oauthCheck Sample.revoked (Sample.authorized [] None))
  = Rejected (VObj Sample.unauthorized).
Proof.
  rewrite (oauthCheck_rejection_propagates Sample.revoked (Sample.authorized [] None)
             Sample.tokens (VStr Sample.hub_redirect) Sample.unauthorized).
  - reflexivity.
  - vm_compute; reflexivity.
  - vm_compute; reflexivity.
Defined.

(** C5, as stated, fails: with tokens the provider has revoked,
    [oauthCheck] does not resolve at all, so no failure value and no
    reset sentinel reaches the caller. *)
Lemma oauthCheck_revoked_never_resolves :
  continuation Sample.revoked (Sample.authorized [] None)
    = Some (Sample.tokens, VStr Sample.hub_redirect)
  /\ files_list Sample.revoked
       (client_of Sample.revoked (VStr Sample.hub_redirect) Sample.tokens) probe
     = ApiErr Sample.unauthorized
  /\ ~ (exists b : bool,
          result (oauthCheck Sample.revoked (Sample.authorized [] None)) = Resolved b).
Proof.
  split; [vm_compute; reflexivity|]. split; [vm_compute; reflexivity|].
  intros [b Hb]. vm_compute in Hb. discriminate.
Qed.

(** Without [state_json], or with an empty one, [execute] answers with
    the reset sentinel and touches nothing. *)
Lemma execute_without_state (w : World) (this : t) (request : ActionRequest) :
  truthy_str (params request !! "state_json") = false ->
  execute w this request = ([], Resolved (reset_response new_ActionResponse)).
Proof.
  unfold execute, truthy_str. intros H.
  destruct (params request !! "state_json") as [sj|]; [|reflexivity].
  simpl of_opt in H. rewrite H. reflexivity.
Qed.

(** With a state that parses to a value other than [null] from which
    [tokens] or [redirect] is missing, likewise. *)
Lemma execute_incomplete_state (w : World) (this : t) (request : ActionRequest)
    (state_json : string) (stateJson tokens redirect : value) :
  params request !! "state_json" = Some state_json ->
  JSON_parse w state_json = Some stateJson ->
  get stateJson "tokens" = Some tokens ->
  get stateJson "redirect" = Some redirect ->
  truthy tokens && truthy redirect = false ->
  execute w this request = ([], Resolved (reset_response new_ActionResponse)).
Proof.
  intros Hp Hj Ht Hr Hmissing. unfold execute. rewrite Hp.
  destruct (truthy (VStr state_json)); [|reflexivity]. simpl negb. cbv iota.
  unfold parse, read. rewrite Hj, bind_ret, Ht, bind_ret.
  destruct (truthy tokens) eqn:Htt.
  - rewrite Hr, bind_ret. simpl in Hmissing. rewrite Hmissing. reflexivity.
  - rewrite bind_ret. reflexivity.
Qed.

(** C6 at the input where the code departs from it. A [state_json]
    that parses to [null] lacks [tokens] and [redirect], yet [execute]
    rejects with the [TypeError] of reading [tokens] instead of answering
    with the reset sentinel. Nothing is sent either. *)
Theorem execute_null_state_rejects (w : World) (this : t) (request : ActionRequest)
    (state_json : string) :
  params request !! "state_json" = Some state_json ->
  truthy (VStr state_json) = true ->
  JSON_parse w state_json = Some VNull ->
  execute w this request = ([], Rejected TypeError).
Proof.
  intros Hp Hne Hj. unfold execute. rewrite Hp, Hne. simpl negb. cbv iota.
  unfold parse. rewrite Hj, bind_ret. reflexivity.
Qed.

Lemma execute_null_state_witness :
  continuation Sample.granted (Sample.request_with [("state_json", "null")] [] None)
    = None
  /\ execute Sample.granted Sample.this
       (Sample.request_with [("state_json", "null")] [] None)
     = ([], Rejected TypeError).
Proof.
  split; [vm_compute; reflexivity|].
  apply (execute_null_state_rejects Sample.granted Sample.this
           (Sample.request_with [("state_json", "null")] [] None) "null").
  - vm_compute; reflexivity.
  - vm_compute; reflexivity.
  - vm_compute; reflexivity.
Defined.

End Authorization.

(** ** The SFTP action: validation *)

Module SftpFacts.

Import SFTPAction.

Lemma execute_no_data (w : World) (request : ActionRequest) :
  has_data request = None ->
  execute w request =
    ([Log "console" "pushkar ------ request: " None],
     Rejected (VStr "Couldn't get data from attachment.")).
Proof. intros Hdata. unfold execute, executor. rewrite Hdata. reflexivity. Qed.

Lemma execute_no_address (w : World) (request : ActionRequest)
    (payload : list Byte.byte) :
  has_data request = Some payload ->
  truthy_str (formParams request !! "address") = false ->
  execute w request =
    ([Log "console" "pushkar ------ request: " None;
      Log "console" "pushkar ------ request.formParams: " None],
     Rejected (VStr "Needs a valid SFTP address. [1]")).
Proof.
  intros Hdata Haddr. unfold execute, executor. rewrite Hdata, Haddr.
  reflexivity.
Qed.

(** C9. Without an attachment, or without its data buffer, the promise
    of [execute] rejects with the bare string "Couldn't get data from
    attachment."; with the data but no address it rejects with the bare
    string "Needs a valid SFTP address. [1]". Neither case resolves to a
    response. *)
Theorem execute_raw_rejections (w : World) (request : ActionRequest) :
  (has_data request = None ->
   result (execute w request) = Rejected (VStr "Couldn't get data from attachment."))
  /\ (has_data request <> None ->
      truthy_str (formParams request !! "address") = false ->
      result (execute w request) = Rejected (VStr "Needs a valid SFTP address. [1]"))
  /\ (truthy_str (formParams request !! "address") = false \/ has_data request = None ->
      forall resp, result (execute w request) <> Resolved resp).
Proof.
  split; [|split].
  - intros Hdata. rewrite (execute_no_data w request Hdata). reflexivity.
  - intros Hdata Haddr. destruct (has_data request) as [payload|] eqn:E; [|congruence].
    rewrite (execute_no_address w request payload E Haddr). reflexivity.
  - intros H resp. destruct (has_data request) as [payload|] eqn:E.
    + destruct H as [Haddr|]; [|discriminate].
      rewrite (execute_no_address w request payload E Haddr). discriminate.
    + rewrite (execute_no_data w request E). discriminate.
Qed.

Lemma execute_raw_rejections_witness :
  result (execute Sample.granted (Sample.without_attachment []))
    = Rejected (VStr "Couldn't get data from attachment.")
  /\ result (execute Sample.granted (Sample.request_with [] [] None))
     = Rejected (VStr "Needs a valid SFTP address. [1]").
Proof.
  split.
  - destruct (execute_raw_rejections Sample.granted (Sample.without_attachment []))
      as (H & _ & _).
    apply H. vm_compute; reflexivity.
  - destruct (execute_raw_rejections Sample.granted (Sample.request_with [] [] None))
      as (_ & H & _).
    apply H; [vm_compute; discriminate | vm_compute; reflexivity].
Defined.

(** C3, as the code has it. When [address] is absent or empty,
    [execute] does not resolve to a response. With the attachment and its
    data buffer there, its promise rejects with the bare string "Needs a
    valid SFTP address. [1]"; with the attachment or its data buffer
    missing as well, it rejects with the bare string "Couldn't get data
    from attachment.". In both cases it performs no external call: no
    connection is opened and nothing is put. *)
Theorem missing_address_rejects (w : World) (request : ActionRequest) :
  truthy_str (formParams request !! "address") = false ->
  (forall a payload,
     attachment request = Some a -> dataBuffer a = Some payload ->
     execute w request =
       ([Log "console" "pushkar ------ request: " None;
         Log "console" "pushkar ------ request.formParams: " None],
        Rejected (VStr "Needs a valid SFTP address. [1]")))
  /\ (attachment request = None
      \/ (exists a, attachment request = Some a /\ dataBuffer a = None) ->
      execute w request =
        ([Log "console" "pushkar ------ request: " None],
         Rejected (VStr "Couldn't get data from attachment.")))
  /\ calls (events (execute w request)) = []
  /\ (forall resp, result (execute w request) <> Resolved resp).
Proof.
  intros Haddr. split; [|split; [|split]].
  - intros a payload Ha Hbuf.
    apply (execute_no_address w request payload); [|exact Haddr].
    unfold has_data. rewrite Ha. exact Hbuf.
  - intros Hmissing. apply execute_no_data. unfold has_data.
    destruct Hmissing as [-> | (a & -> & Hbuf)]; [reflexivity | exact Hbuf].
  - destruct (has_data request) as [payload|] eqn:Hdata.
    + rewrite (execute_no_address w request payload Hdata Haddr). reflexivity.
    + rewrite (execute_no_data w request Hdata). reflexivity.
  - intros resp. destruct (has_data request) as [payload|] eqn:Hdata.
    + rewrite (execute_no_address w request payload Hdata Haddr). discriminate.
    + rewrite (execute_no_data w request Hdata). discriminate.
Qed.

Lemma missing_address_witness :
  result (execute Sample.granted (Sample.request_with [] [("username", "u")] None))
    = Rejected (VStr "Needs a valid SFTP address. [1]")
  /\ result (execute Sample.granted (Sample.without_attachment [("username", "u")]))
     = Rejected (VStr "Couldn't get data from attachment.")
  /\ calls (events (execute Sample.granted
                      (Sample.request_with [] [("username", "u")] None))) = [].
Proof.
  destruct (missing_address_rejects Sample.granted
              (Sample.request_with [] [("username", "u")] None))
    as (Hdata & _ & Hcalls & _); [vm_compute; reflexivity|].
  destruct (missing_address_rejects Sample.granted
              (Sample.without_attachment [("username", "u")]))
    as (_ & Hnone & _ & _); [vm_compute; reflexivity|].
  split; [|split].
  - rewrite (Hdata {| dataBuffer := Some []; mime := None |} [] eq_refl eq_refl).
    reflexivity.
  - rewrite (Hnone (or_introl eq_refl)). reflexivity.
  - exact Hcalls.
Defined.

(** C3, as stated, fails: a request with its data but without [address]
    gets no response at all, structured or not. *)
Lemma missing_address_no_response :
  formParams (Sample.request_with [] [("username", "u")] None) !! "address" = None
  /\ ~ (exists resp : ActionResponse,
          result (execute Sample.granted
                    (Sample.request_with [] [("username", "u")] None))
          = Resolved resp).
Proof.
  split; [vm_compute; reflexivity|].
  intros [resp H]. vm_compute in H. discriminate.
Qed.

End SftpFacts.

(** ** Form negotiation *)

Module FormNegotiation.

Import GoogleDriveAction.

(** No value is at once strictly equal to 401 and to 403. *)
Lemma fetch_guard_true (st : value) : fetch_guard st = true.
Proof.
  unfold fetch_guard, strict_neq_num, strict_eq_num.
  destruct st as [| |b|n|s|l|ps]; try reflexivity.
  destruct (n =? 401) eqn:E; [|reflexivity].
  apply Z.eqb_eq in E. subst n. reflexivity.
Qed.

Lemma list_catch_readable (w : World) (request : ActionRequest) (reason : value) :
  reason <> VNull -> reason <> VUndef ->
  list_catch w request reason =
    ([Log "info" "No folders found" (webhookId request)],
     Resolved (Some empty_file_list)).
Proof.
  intros Hnull Hundef. unfold list_catch, read.
  destruct reason; try contradiction; cbn [get];
    rewrite bind_ret, fetch_guard_true; reflexivity.
Qed.

Lemma list_catch_never_undefined (w : World) (request : ActionRequest)
    (reason : value) :
  result (list_catch w request reason) <> Resolved None.
Proof.
  unfold list_catch, read. destruct (get reason "status") as [st|].
  - rewrite bind_ret, fetch_guard_true. discriminate.
  - discriminate.
Qed.

(** C4. The guard of the catch handler holds for every status, so for
    every reason whose [status] can be read, and so for every error object
    the provider rejects with, the handler resolves to an empty file list;
    the branch that only logs the status and yields [undefined] is never
    taken, and the folder select offers the root alone. *)
Theorem list_failure_yields_empty_listing (w : World) (request : ActionRequest)
    (props : list (string * value)) :
  (forall st : value, fetch_guard st = true)
  /\ (forall reason : value,
        reason <> VNull -> reason <> VUndef ->
        list_catch w request reason =
          ([Log "info" "No folders found" (webhookId request)],
           Resolved (Some empty_file_list)))
  /\ (forall reason : value, result (list_catch w request reason) <> Resolved None)
  /\ (forall (fuel : nat) (drive : Drive) (search : string),
        files_list w drive (list_options request search) = ApiErr props ->
        folder_fields w fuel request drive search =
          ([CallFilesList drive (list_options request search);
            Log "info" "No folders found" (webhookId request)],
           Resolved [folder_field [drive_root] (VStr "root"); filename_field])).
Proof.
  split; [exact fetch_guard_true|].
  split; [apply list_catch_readable|].
  split; [apply list_catch_never_undefined|].
  intros fuel drive search Hlist. unfold folder_fields. rewrite Hlist.
  simpl of_api. unfold call. cbn [bind catch].
  rewrite list_catch_readable by discriminate.
  destruct fuel; reflexivity.
Qed.

Lemma list_failure_witness :
  list_catch Sample.revoked (Sample.authorized [("search", "")] (Some "wh-1"))
    (VObj Sample.unauthorized)
  = ([Log "info" "No folders found" (Some "wh-1")], Resolved (Some empty_file_list))
  /\ folder_fields Sample.revoked 0
       (Sample.authorized [("search", "")] (Some "wh-1"))
       (client_of Sample.revoked (VStr Sample.hub_redirect) Sample.tokens) ""
     = ([CallFilesList
           (client_of Sample.revoked (VStr Sample.hub_redirect) Sample.tokens)
           (list_options (Sample.authorized [("search", "")] (Some "wh-1")) "");
         Log "info" "No folders found" (Some "wh-1")],
        Resolved [folder_field [drive_root] (VStr "root"); filename_field]).
Proof.
  destruct (list_failure_yields_empty_listing Sample.revoked
              (Sample.authorized [("search", "")] (Some "wh-1"))
              Sample.unauthorized) as (_ & Hcatch & _ & H).
  split.
  - apply Hcatch; discriminate.
  - apply H. vm_compute; reflexivity.
Defined.

Lemma getDrives_resolved (w : World) (drive : Drive) (dl : DriveList) :
  drives_list w drive 50 = ApiOk dl ->
  getDrives w drive =
    ([CallDrivesList drive 50], Resolved (my_drive :: shared_options dl)).
Proof.
  intros H. unfold getDrives, shared_options. rewrite H. simpl of_api.
  rewrite bind_call_resolved. destruct (drives dl); reflexivity.
Qed.

Lemma getDrives_inv (w : World) (drive : Drive) (l : list FieldOption) :
  result (getDrives w drive) = Resolved l ->
  exists dl, drives_list w drive 50 = ApiOk dl /\ l = my_drive :: shared_options dl.
Proof.
  destruct (drives_list w drive 50) as [dl|ps|] eqn:E.
  - rewrite (getDrives_resolved w drive dl E). simpl. intros [= <-]. eauto.
  - unfold getDrives. rewrite E. discriminate.
  - unfold getDrives. rewrite E. discriminate.
Qed.

(** *** The drive select always starts with "My Drive" *)

Ltac invert_bind H :=
  let a := fresh "a" in
  let Ha := fresh "Ha" in
  apply bind_resolved_inv in H as (a & Ha & H); cbv beta in H.

Lemma loginForm_fields (w : World) (request : ActionRequest) (f : ActionForm) :
  result (loginForm w request) = Resolved f -> map name (fields f) = ["login"].
Proof.
  unfold loginForm. destruct (crypto_encrypt w _) as [c|r|]; simpl; intros H.
  - injection H as <-. reflexivity.
  - discriminate.
  - discriminate.
Qed.

Lemma folder_fields_names (w : World) (fuel : nat) (request : ActionRequest)
    (drive : Drive) (search : string) (fs : list ActionFormField) :
  result (folder_fields w fuel request drive search) = Resolved fs ->
  Forall (fun fld => name fld <> "drive") fs.
Proof.
  unfold folder_fields. intros H. do 4 invert_bind H.
  simpl in H. injection H as <-.
  repeat constructor; discriminate.
Qed.

Lemma form_authorized_inv (w : World) (fuel : nat) (request : ActionRequest)
    (state_json : string) (f : ActionForm) :
  result (form_authorized w fuel request state_json) = Resolved (Some f) ->
  exists shared rest,
    fields f = drive_field (my_drive :: shared) (VStr "mydrive") :: rest
    /\ Forall (fun fld => name fld <> "drive") rest.
Proof.
  unfold form_authorized. intros H. do 3 invert_bind H.
  destruct (truthy a0 && truthy a1); [|discriminate].
  invert_bind H. invert_bind H.
  apply getDrives_inv in Ha3 as (dl & _ & ->).
  invert_bind H. simpl in Ha3. injection Ha3 as <-.
  invert_bind H. simpl in H. injection H as <-. simpl fields.
  exists (shared_options dl).
  destruct (formParams request !! "search") as [search|].
  - invert_bind Ha3. simpl in Ha3. injection Ha3 as <-.
    apply folder_fields_names in Ha4.
    eexists. split; [reflexivity|].
    apply Forall_app. split; [exact Ha4|]. repeat constructor; discriminate.
  - simpl in Ha3. injection Ha3 as <-.
    eexists. split; [reflexivity|]. repeat constructor; discriminate.
Qed.

Lemma form_inv (w : World) (fuel : nat) (request : ActionRequest) (f : ActionForm) :
  result (form w fuel request) = Resolved f ->
  map name (fields f) = ["login"]
  \/ exists state_json,
       result (form_authorized w fuel request state_json) = Resolved (Some f).
Proof.
  unfold form. intros H. invert_bind H. destruct a as [f'|].
  - simpl in H. injection H as ->. right.
    destruct (params request !! "state_json") as [sj|]; [|discriminate].
    destruct (truthy (VStr sj)); [|discriminate].
    exists sj. apply catch_resolved_inv in Ha as [Ha|(r & _ & Ha)]; [exact Ha|].
    do 2 invert_bind Ha. discriminate.
  - left. apply loginForm_fields with (w := w) (request := request). exact H.
Qed.


(** C10. [getDrives] answers with [{name: "mydrive", label: "My
    Drive"}] first and, after it, one option [{name: d.id, label: d.name}]
    for each shared drive the provider reports, in the order reported; so
    the list is never empty, and it is that one option alone when the
    provider reports no shared drive. Every [drive] field of a form that
    [form] returns has "mydrive" as its default and that option as its
    first. *)
Theorem getDrives_my_drive_first (w : World) (drive : Drive) :
  (forall (dl : DriveList) (ds : list Schema_Drive),
     drives_list w drive 50 = ApiOk dl ->
     drives dl = Some ds ->
     result (getDrives w drive) =
       Resolved ({| opt_name := VStr "mydrive"; opt_label := VStr "My Drive" |}
                 :: map (fun d => {| opt_name := drive_id d;
                                     opt_label := drive_name d |}) ds))
  /\ (forall dl : DriveList,
        drives_list w drive 50 = ApiOk dl ->
        drives dl = None \/ drives dl = Some [] ->
        result (getDrives w drive) =
          Resolved [ {| opt_name := VStr "mydrive"; opt_label := VStr "My Drive" |} ])
  /\ (forall l : list FieldOption,
        result (getDrives w drive) = Resolved l ->
        exists shared,
          l = {| opt_name := VStr "mydrive"; opt_label := VStr "My Drive" |}
              :: shared)
  /\ (forall (fuel : nat) (request : ActionRequest) (f : ActionForm)
             (fld : ActionFormField),
        result (form w fuel request) = Resolved f ->
        fld ∈ fields f ->
        name fld = "drive" ->
        default fld = Some (VStr "mydrive")
        /\ exists shared,
             options fld =
               Some ({| opt_name := VStr "mydrive"; opt_label := VStr "My Drive" |}
                     :: shared))
  /\ (forall (fuel : nat) (request : ActionRequest) (f : ActionForm),
        result (form w fuel request) = Resolved f ->
        map name (fields f) <> ["login"] ->
        exists fld rest,
          fields f = fld :: rest
          /\ name fld = "drive" /\ type fld = "select"
          /\ default fld = Some (VStr "mydrive")).
Proof.
  split; [|split; [|split; [|split]]].
  - intros dl ds H Hds. rewrite (getDrives_resolved w drive dl H).
    unfold shared_options. rewrite Hds. reflexivity.
  - intros dl H Hnone. rewrite (getDrives_resolved w drive dl H).
    unfold shared_options. destruct Hnone as [-> | ->]; reflexivity.
  - intros l H. apply getDrives_inv in H as (dl & _ & ->). eauto.
  - intros fuel request f fld Hform Hin Hname.
    apply form_inv in Hform as [Hlogin | (sj & Hauth)].
    + exfalso. apply (list_elem_of_fmap_2 name) in Hin.
      change (name <$> fields f) with (map name (fields f)) in Hin.
      rewrite Hlogin, Hname in Hin.
      apply list_elem_of_singleton in Hin. discriminate.
    + apply form_authorized_inv in Hauth as (shared & rest & Hfields & Hrest).
      rewrite Hfields in Hin. apply elem_of_cons in Hin as [-> | Hin].
      * split; [reflexivity|]. exists shared. reflexivity.
      * exfalso. rewrite Forall_forall in Hrest. exact (Hrest fld Hin Hname).
  - intros fuel request f Hform Hnot.
    apply form_inv in Hform as [Hlogin | (sj & Hauth)]; [contradiction|].
    apply form_authorized_inv in Hauth as (shared & rest & Hfields & _).
    eexists. exists rest. split; [exact Hfields|]. repeat split.
Qed.

Lemma getDrives_my_drive_first_witness :
  result (getDrives Sample.granted
            (client_of Sample.granted (VStr Sample.hub_redirect) Sample.tokens))
  = Resolved [ {| opt_name := VStr "mydrive"; opt_label := VStr "My Drive" |};
               {| opt_name := VStr "0AB"; opt_label := VStr "Team" |} ]
  /\ result (getDrives
               (Sample.world (ApiOk {| drives := None |}) (ApiOk Sample.one_page))
               (client_of Sample.granted (VStr Sample.hub_redirect) Sample.tokens))
     = Resolved [ {| opt_name := VStr "mydrive"; opt_label := VStr "My Drive" |} ].
Proof.
  split.
  - destruct (getDrives_my_drive_first Sample.granted
                (client_of Sample.granted (VStr Sample.hub_redirect) Sample.tokens))
      as (H & _).
    rewrite (H Sample.shared_drives
               [ {| drive_id := VStr "0AB"; drive_name := VStr "Team" |} ]
               eq_refl eq_refl).
    reflexivity.
  - destruct (getDrives_my_drive_first
                (Sample.world (ApiOk {| drives := None |}) (ApiOk Sample.one_page))
                (client_of Sample.granted (VStr Sample.hub_redirect) Sample.tokens))
      as (_ & H & _).
    apply (H {| drives := None |}); [reflexivity | left; reflexivity].
Defined.

(** *** The form is a function of [params] and [formParams] *)

Lemma same_run_refl {A} (m : M A) : same_run m m.
Proof. split; reflexivity. Qed.

Lemma same_run_bind {A B} (m1 m2 : M A) (k1 k2 : A -> M B) :
  same_run m1 m2 ->
  (forall a, same_run (k1 a) (k2 a)) ->
  same_run (bind m1 k1) (bind m2 k2).
Proof.
  unfold same_run. rewrite !result_bind, !events_bind.
  intros [Hr He] Hk. rewrite Hr.
  destruct (result m2) as [a|r|]; [|split; auto ..].
  destruct (Hk a) as [Hr' He']. split; [exact Hr'|].
  rewrite !map_app, He, He'. reflexivity.
Qed.

Lemma same_run_catch {A} (m1 m2 : M A) (h1 h2 : value -> M A) :
  same_run m1 m2 ->
  (forall r, same_run (h1 r) (h2 r)) ->
  same_run (catch m1 h1) (catch m2 h2).
Proof.
  unfold same_run. rewrite !result_catch, !events_catch.
  intros [Hr He] Hh. rewrite Hr.
  destruct (result m2) as [a|r|]; [split; auto| |split; auto].
  destruct (Hh r) as [Hr' He']. split; [exact Hr'|].
  rewrite !map_app, He, He'. reflexivity.
Qed.

Lemma same_run_log (level msg : string) (w1 w2 : option string) :
  same_run (emit (Log level msg w1)) (emit (Log level msg w2)).
Proof. split; reflexivity. Qed.

Lemma same_run_calls {A} (m1 m2 : M A) :
  same_run m1 m2 -> calls (events m1) = calls (events m2).
Proof.
  intros [_ He]. revert He. generalize (events m2). generalize (events m1).
  induction l as [|e1 t1 IH]; intros [|e2 t2] He; try discriminate; [reflexivity|].
  simpl in He. injection He as He1 He2. unfold calls. simpl.
  rewrite (IH t2 He2 : List.filter is_call t1 = List.filter is_call t2).
  destruct e1, e2; simpl in *; try discriminate; try rewrite He1; reflexivity.
Qed.

Section Replay.

Variable w : World.
Variables r1 r2 : ActionRequest.
Hypothesis same_params : params r1 = params r2.
Hypothesis same_formParams : formParams r1 = formParams r2.

Lemma list_catch_same (reason : value) :
  same_run (list_catch w r1 reason) (list_catch w r2 reason).
Proof.
  unfold list_catch. apply same_run_bind; [apply same_run_refl|].
  intros st. destruct (fetch_guard st);
    (apply same_run_bind; [apply same_run_log | intros; apply same_run_refl]).
Qed.

Lemma list_options_same (search : string) :
  list_options r1 search = list_options r2 search.
Proof. unfold list_options. rewrite same_formParams. reflexivity. Qed.

Lemma folder_fields_same (fuel : nat) (drive : Drive) (search : string) :
  same_run (folder_fields w fuel r1 drive search)
           (folder_fields w fuel r2 drive search).
Proof.
  unfold folder_fields. rewrite list_options_same.
  apply same_run_bind; [|intros; apply same_run_refl].
  apply same_run_catch; [apply same_run_refl | apply list_catch_same].
Qed.

Lemma loginForm_same : loginForm w r1 = loginForm w r2.
Proof. unfold loginForm. rewrite same_params. reflexivity. Qed.

Lemma form_authorized_same (fuel : nat) (state_json : string) :
  same_run (form_authorized w fuel r1 state_json)
           (form_authorized w fuel r2 state_json).
Proof.
  unfold form_authorized.
  do 3 (apply same_run_bind; [apply same_run_refl | intros ?]).
  destruct (_ && _); [|apply same_run_refl].
  do 3 (apply same_run_bind; [apply same_run_refl | intros ?]).
  apply same_run_bind; [|intros; apply same_run_refl].
  rewrite same_formParams. destruct (formParams r2 !! "search"); [|apply same_run_refl].
  apply same_run_bind; [apply folder_fields_same | intros; apply same_run_refl].
Qed.

Lemma form_same (fuel : nat) : same_run (form w fuel r1) (form w fuel r2).
Proof.
  unfold form. rewrite same_params, loginForm_same.
  apply same_run_bind; [|intros; apply same_run_refl].
  destruct (params r2 !! "state_json") as [sj|]; [|apply same_run_refl].
  destruct (truthy (VStr sj)); [|apply same_run_refl].
  apply same_run_catch; [apply form_authorized_same|].
  intros e. apply same_run_bind; [apply same_run_refl | intros e'].
  apply same_run_bind; [apply same_run_log | intros; apply same_run_refl].
Qed.

End Replay.

(** C7. [form] is a function of [params] and [formParams], given the
    provider's answers: two requests that agree on both get the same
    form, echoed state included, or fail alike, after the same external
    calls and the same log messages. Nothing else of the request, and no
    state of the server, enters. *)
Theorem form_replayable (w : World) (fuel : nat) (r1 r2 : ActionRequest) :
  params r1 = params r2 ->
  formParams r1 = formParams r2 ->
  result (form w fuel r1) = result (form w fuel r2)
  /\ map anonymous (events (form w fuel r1)) = map anonymous (events (form w fuel r2))
  /\ calls (events (form w fuel r1)) = calls (events (form w fuel r2)).
Proof.
  intros Hp Hf. pose proof (form_same w r1 r2 Hp Hf fuel) as Hsame.
  split; [apply Hsame|]. split; [apply Hsame|].
  apply same_run_calls. exact Hsame.
Qed.

Lemma form_replayable_witness :
  result (form Sample.granted 1 (Sample.authorized [("search", "Q3")] (Some "wh-1")))
  = result (form Sample.granted 1
              {| params := params (Sample.authorized [("search", "Q3")] (Some "wh-1"));
                 formParams := list_to_map [("search", "Q3")];
                 attachment := None;
                 webhookId := Some "wh-2" |}).
Proof.
  apply (form_replayable Sample.granted 1
           (Sample.authorized [("search", "Q3")] (Some "wh-1"))
           {| params := params (Sample.authorized [("search", "Q3")] (Some "wh-1"));
              formParams := list_to_map [("search", "Q3")];
              attachment := None;
              webhookId := Some "wh-2" |}).
  - reflexivity.
  - reflexivity.
Defined.

End FormNegotiation.

(** ** Pagination and end-to-end runs *)

Module Runs.

Import GoogleDriveAction.

(** A last page settles the listing whatever the fuel. *)
Lemma pagedFileList_last_page (w : World) (fuel : nat) (drive : Drive)
    (options : ListOptions) (acc : list (option Schema_File)) (r : FileList) :
  truthy (nextPageToken r) = false ->
  pagedFileList w fuel drive options acc (Some r) = ret (concat_files acc r).
Proof. intros H. destruct fuel; simpl; rewrite H; reflexivity. Qed.

Lemma pagedFileList_next_page (w : World) (fuel : nat) (drive : Drive)
    (options : ListOptions) (acc : list (option Schema_File)) (r : FileList) :
  truthy (nextPageToken r) = true ->
  pagedFileList w (S fuel) drive options acc (Some r)
  = let pageOptions := with_pageToken options (nextPageToken r) in
    let* next := call (CallFilesList drive pageOptions)
                      (of_api (files_list w drive pageOptions)) in
    pagedFileList w fuel drive options (concat_files acc r) (Some next).
Proof. intros H. cbn [pagedFileList]. rewrite H. reflexivity. Qed.

(** Fuel only cuts a listing short: once it settles, more fuel settles it
    the same way. *)
Lemma pagedFileList_more_fuel (w : World) (fuel : nat) (drive : Drive)
    (options : ListOptions) (acc : list (option Schema_File))
    (response : option FileList) :
  result (pagedFileList w fuel drive options acc response) <> Pending ->
  pagedFileList w (S fuel) drive options acc response
  = pagedFileList w fuel drive options acc response.
Proof.
  revert acc response. induction fuel as [|fuel IH]; intros acc [r|] H;
    try reflexivity.
  - simpl in *. destruct (truthy (nextPageToken r)); [|reflexivity].
    exfalso. apply H. reflexivity.
  - destruct (truthy (nextPageToken r)) eqn:Htok.
    + rewrite (pagedFileList_next_page w (S fuel) _ _ _ _ Htok).
      rewrite (pagedFileList_next_page w fuel _ _ _ _ Htok) in *.
      cbv zeta in *.
      destruct (files_list w drive (with_pageToken options (nextPageToken r)))
        as [next|ps|]; simpl of_api in *; try reflexivity.
      rewrite !bind_call_resolved in *. simpl in H.
      rewrite IH; [reflexivity | exact H].
    + rewrite !pagedFileList_last_page by exact Htok. reflexivity.
Qed.

(** A provider that sends a page token with every page keeps the listing
    pending for ever. *)
Lemma pagedFileList_endless (w : World) (drive : Drive) (options : ListOptions)
    (r : FileList) :
  (forall o, files_list w drive o = ApiOk r) ->
  truthy (nextPageToken r) = true ->
  forall fuel acc,
    result (pagedFileList w fuel drive options acc (Some r)) = Pending.
Proof.
  intros Hall Htok. induction fuel as [|fuel IH]; intros acc.
  - simpl. rewrite Htok. reflexivity.
  - cbn [pagedFileList]. rewrite Htok, Hall. simpl of_api.
    rewrite bind_call_resolved. apply IH.
Qed.

Example form_lists_folders :
  result (form Sample.granted 0 (Sample.authorized [("search", "")] None))
  = Resolved
      {| fields :=
           [drive_field (my_drive :: shared_options Sample.shared_drives)
                        (VStr "mydrive");
            folder_field [drive_root;
                          {| opt_name := VStr "f1"; opt_label := VStr "Reports" |}]
                         (VStr "root");
            filename_field; fetch_field; search_field];
         state := Some (echoed_state Sample.granted Sample.tokens
                                     (VStr Sample.hub_redirect)) |}.
Proof. vm_compute; reflexivity. Qed.

Example execute_sends :
  result (execute Sample.granted Sample.this (Sample.authorized [] (Some "wh-1")))
  = Resolved new_ActionResponse.
Proof. vm_compute; reflexivity. Qed.

Example execute_reset_on_partial_state :
  execute Sample.granted Sample.this
    (Sample.request_with [("state_json", Sample.stringify Sample.partial_state)]
                         [] None)
  = ([], Resolved (reset_response new_ActionResponse)).
Proof. vm_compute; reflexivity. Qed.

Example sftp_delivers :
  SFTPAction.execute Sample.granted
    (Sample.request_with [] [("address", "sftp://files.example/upload/")] None)
  = ([Log "console" "pushkar ------ request: " None;
      Log "console" "pushkar ------ request.formParams: " None;
      CallSftpConnect {| host := "files.example"; username := None;
                         password := None; port := 22 |};
      CallSftpPut [] "/upload/export.csv"],
     Resolved new_ActionResponse).
Proof. vm_compute; reflexivity. Qed.

(** An address that is no URL makes the executor raise, and the promise
    of the SFTP [execute] is left pending. *)
Example sftp_bad_address_hangs :
  result (SFTPAction.execute Sample.granted
            (Sample.request_with [] [("address", "not a url")] None))
  = Pending.
Proof. vm_compute; reflexivity. Qed.

End Runs.

(** ** Object literals *)

Lemma assoc_set_prop_eq (k : string) (v : value) (ps : list (string * value)) :
  assoc k (set_prop k v ps) = v.
Proof.
  induction ps as [|[k' v'] ps IH]; simpl.
  - rewrite String.eqb_refl. reflexivity.
  - destruct (String.eqb k k') eqn:E; simpl.
    + rewrite String.eqb_refl. reflexivity.
    + rewrite E. exact IH.
Qed.

Lemma assoc_set_prop_ne (k k' : string) (v : value) (ps : list (string * value)) :
  k <> k' -> assoc k' (set_prop k v ps) = assoc k' ps.
Proof.
  intros Hne. induction ps as [|[k0 v0] ps IH]; simpl.
  - destruct (String.eqb k' k) eqn:E; [|reflexivity].
    apply String.eqb_eq in E. congruence.
  - destruct (String.eqb k k0) eqn:E; simpl.
    + apply String.eqb_eq in E. subst k0.
      destruct (String.eqb k' k) eqn:E2; [|reflexivity].
      apply String.eqb_eq in E2. congruence.
    + destruct (String.eqb k' k0); [reflexivity | exact IH].
Qed.

Lemma read_object (ps : list (string * value)) (k : string) :
  read (VObj ps) k = ret (assoc k ps).
Proof. reflexivity. Qed.

Lemma read_truthy (v : value) (k : string) :
  truthy v = true -> exists x, get v k = Some x /\ read v k = ret x.
Proof.
  unfold read. destruct v; try discriminate; intros _; simpl; eauto.
Qed.

(** ** Redaction of provider errors *)

Module Redaction.

Import GoogleDriveAction.

Lemma falsy_scrubbed (v : value) : truthy v = false -> scrubbed_prop v = true.
Proof.
  destruct v; simpl; intros H; try reflexivity; try (rewrite H; reflexivity).
  apply negb_false_iff in H. rewrite H. apply orb_true_r.
Qed.

Lemma redact_prop_scrubs (k : string) (ps : list (string * value)) :
  scrubbed_prop (assoc k (redact_prop k ps)) = true.
Proof.
  unfold redact_prop. destruct (truthy (assoc k ps)) eqn:E.
  - rewrite assoc_set_prop_eq. reflexivity.
  - apply falsy_scrubbed. exact E.
Qed.

Lemma redact_prop_other (k k' : string) (ps : list (string * value)) :
  k <> k' -> assoc k' (redact_prop k ps) = assoc k' ps.
Proof.
  intros Hne. unfold redact_prop. destruct (truthy (assoc k ps)); [|reflexivity].
  apply assoc_set_prop_ne. exact Hne.
Qed.

Lemma redact_scrubbed (config : value) : scrubbed (redact config) = true.
Proof.
  destruct config as [| |b|n|s|l|ps]; try reflexivity. simpl.
  rewrite redact_prop_other by discriminate.
  rewrite !redact_prop_scrubs. reflexivity.
Qed.

Lemma falsy_config_scrubbed (config : value) :
  truthy config = false -> scrubbed config = true.
Proof. destruct config; simpl; intros H; try reflexivity; discriminate. Qed.

(** X1. [sanitizeGaxiosError] never fails on an error object. It leaves
    every property other than [config] and [response] as it was, and
    afterwards neither [err.config] nor [err.response.config] carries a
    [data] or [body] other than the redaction mark. *)
Theorem sanitize_scrubs_object (ps : list (string * value)) :
  exists ps',
    sanitizeGaxiosError (VObj ps) = ret (VObj ps')
    /\ (forall k, k <> "config" -> k <> "response" -> assoc k ps' = assoc k ps)
    /\ scrubbed (assoc "config" ps') = true
    /\ (forall rps, assoc "response" ps' = VObj rps ->
                    scrubbed (assoc "config" rps) = true).
Proof.
  unfold sanitizeGaxiosError. rewrite !read_object, !bind_ret.
  set (cfg := assoc "config" ps). set (resp := assoc "response" ps).
  set (ps1 := if truthy cfg then set_prop "config" (redact cfg) ps else ps).
  assert (Hcfg1 : scrubbed (assoc "config" ps1) = true).
  { unfold ps1. destruct (truthy cfg) eqn:E.
    - rewrite assoc_set_prop_eq. apply redact_scrubbed.
    - apply falsy_config_scrubbed. exact E. }
  assert (Hother1 : forall k, k <> "config" -> assoc k ps1 = assoc k ps).
  { intros k Hk. unfold ps1. destruct (truthy cfg); [|reflexivity].
    apply assoc_set_prop_ne. congruence. }
  destruct (truthy resp) eqn:Hresp.
  - destruct (read_truthy resp "config" Hresp) as (rcfg & Hget & Hread).
    rewrite Hread, bind_ret. cbn [andb].
    destruct (truthy rcfg) eqn:Hrcfg.
    + destruct resp as [| |b|n|s|l|rps] eqn:Eresp; try discriminate;
        try (eexists; split; [reflexivity|]; split;
             [intros k Hk _; apply Hother1; exact Hk|];
             split; [exact Hcfg1|];
             intros rps' Hr; rewrite Hother1 in Hr by discriminate;
             fold resp in Hr; rewrite Eresp in Hr; discriminate).
      eexists. split; [reflexivity|]. split; [|split].
      * intros k Hk Hk'. rewrite assoc_set_prop_ne by congruence.
        apply Hother1. exact Hk.
      * rewrite assoc_set_prop_ne by discriminate. exact Hcfg1.
      * intros rps' Hr. rewrite assoc_set_prop_eq in Hr. injection Hr as <-.
        rewrite assoc_set_prop_eq. apply redact_scrubbed.
    + eexists. split; [reflexivity|]. split; [|split].
      * intros k Hk _. apply Hother1. exact Hk.
      * exact Hcfg1.
      * intros rps' Hr. rewrite Hother1 in Hr by discriminate.
        fold resp in Hr. rewrite Hr in Hget. simpl in Hget. injection Hget as ->.
        apply falsy_config_scrubbed. exact Hrcfg.
  - rewrite bind_ret. cbn [andb].
    eexists. split; [reflexivity|]. split; [|split].
    + intros k Hk _. apply Hother1. exact Hk.
    + exact Hcfg1.
    + intros rps' Hr. rewrite Hother1 in Hr by discriminate.
      fold resp in Hr. rewrite Hr in Hresp. discriminate.
Qed.

Lemma sanitize_scrubs_object_witness :
  exists ps',
    sanitizeGaxiosError (VObj Fixtures.quota_exceeded) = ret (VObj ps')
    /\ assoc "reason" ps' = VStr "storageQuotaExceeded"
    /\ get (assoc "config" ps') "body" = Some (VStr "[REDACTED]")
    /\ get (assoc "config" ps') "url"
       = Some (VStr "https://www.googleapis.com/upload/drive/v3/files").
Proof.
  destruct (sanitize_scrubs_object Fixtures.quota_exceeded)
    as (ps' & Heq & Hkeep & _ & _).
  exists ps'. split; [exact Heq|]. split.
  - rewrite Hkeep by discriminate. reflexivity.
  - vm_compute in Heq. injection Heq as <-. split; reflexivity.
Defined.

End Redaction.

(** ** The upload *)

Module Upload.

Import GoogleDriveAction.

Lemma sanitize_object_keeps (ps : list (string * value)) :
  exists ps',
    sanitizeGaxiosError (VObj ps) = ret (VObj ps')
    /\ (forall k, k <> "config" -> k <> "response" -> assoc k ps' = assoc k ps).
Proof.
  unfold sanitizeGaxiosError. rewrite !read_object, !bind_ret.
  set (cfg := assoc "config" ps). set (resp := assoc "response" ps).
  set (ps1 := if truthy cfg then set_prop "config" (redact cfg) ps else ps).
  assert (Hother1 : forall k, k <> "config" -> assoc k ps1 = assoc k ps).
  { intros k Hk. unfold ps1. destruct (truthy cfg); [|reflexivity].
    apply assoc_set_prop_ne. congruence. }
  assert (Hrcfg : exists rcfg,
             (if truthy resp then read resp "config" else ret VUndef) = ret rcfg).
  { destruct (truthy resp) eqn:Hresp; [|eauto].
    destruct (read_truthy resp "config" Hresp) as (rcfg & _ & Hread). eauto. }
  destruct Hrcfg as [rcfg ->]. rewrite bind_ret.
  destruct (truthy resp && truthy rcfg).
  - destruct resp; (eexists; split; [reflexivity|]); intros k Hk Hk';
      rewrite ?assoc_set_prop_ne by congruence; apply Hother1; exact Hk.
  - eexists. split; [reflexivity|]. intros k Hk _. apply Hother1. exact Hk.
Qed.

Lemma mime_of_format_known (format : option string) (m : string) :
  mime_of_format format = Some m ->
  m ∈ ["text/csv";
       "application/vnd.openxmlformats-officedocument.spreadsheetml.sheet";
       "application/json"; "text/html"; "text/plain"].
Proof.
  unfold mime_of_format. intros H.
  repeat match type of H with
         | context [match ?x with _ => _ end] => destruct x; try discriminate
         end.
  all: injection H as Hm; rewrite <- Hm; set_solver.
Qed.

Lemma mime_of_format_other (format : string) :
  format ∉ ["csv"; "xlsx"; "inline_json"; "json"; "json_label"; "json_detail";
            "html"; "txt"] ->
  mime_of_format (Some format) = None.
Proof.
  intros Hnot. unfold mime_of_format.
  repeat match goal with
         | |- context [match ?x with _ => _ end] => destruct x; try reflexivity
         end;
    exfalso; apply Hnot; set_solver.
Qed.

(** X2. [getMimeType] answers the type set on the action when that is
    not empty; else the attachment's type when that is not empty; else the
    type fixed by [formParams.format]: text/csv for csv, the spreadsheet
    type for xlsx, application/json for inline_json, json, json_label and
    json_detail, text/html for html, text/plain for txt, and [undefined]
    for any other format or none. It never answers an empty string. *)
Theorem getMimeType_sources (this : t) (request : ActionRequest) :
  (truthy_str (mimeType this) = true ->
   getMimeType this request = mimeType this)
  /\ (truthy_str (mimeType this) = false ->
      truthy_str (attachment_mime request) = true ->
      getMimeType this request = attachment_mime request)
  /\ (truthy_str (mimeType this) = false ->
      truthy_str (attachment_mime request) = false ->
      (forall format m,
         (format, m) ∈
           [("csv", "text/csv");
            ("xlsx",
             "application/vnd.openxmlformats-officedocument.spreadsheetml.sheet");
            ("inline_json", "application/json");
            ("json", "application/json");
            ("json_label", "application/json");
            ("json_detail", "application/json");
            ("html", "text/html");
            ("txt", "text/plain")] ->
         formParams request !! "format" = Some format ->
         getMimeType this request = Some m)
      /\ (forall format,
            formParams request !! "format" = Some format ->
            format ∉ ["csv"; "xlsx"; "inline_json"; "json"; "json_label";
                      "json_detail"; "html"; "txt"] ->
            getMimeType this request = None)
      /\ (formParams request !! "format" = None ->
          getMimeType this request = None))
  /\ (forall m, getMimeType this request = Some m -> m <> "").
Proof.
  unfold getMimeType. split; [|split; [|split]].
  - intros ->. reflexivity.
  - intros -> ->. reflexivity.
  - intros -> ->. split; [|split].
    + intros format m Hin ->.
      repeat (apply elem_of_cons in Hin as [[= -> ->] | Hin]; [reflexivity|]).
      apply elem_of_nil in Hin. contradiction.
    + intros format -> Hnot. apply mime_of_format_other. exact Hnot.
    + intros ->. reflexivity.
  - intros m. destruct (truthy_str (mimeType this)) eqn:E1.
    + intros H. rewrite H in E1. intros ->. discriminate.
    + destruct (truthy_str (attachment_mime request)) eqn:E2.
      * intros H. rewrite H in E2. intros ->. discriminate.
      * intros H. apply mime_of_format_known in H. intros ->.
        repeat (apply elem_of_cons in H as [H|H]; [discriminate|]).
        apply elem_of_nil in H. exact H.
Qed.

Lemma getMimeType_sources_witness :
  getMimeType {| mimeType := Some "" |}
    {| params := ∅; formParams := {["format" := "json_detail"]};
       attachment := Some {| dataBuffer := None; mime := Some "" |};
       webhookId := None |}
  = Some "application/json"
  /\ getMimeType {| mimeType := Some "" |}
       {| params := ∅; formParams := {["format" := "pdf"]};
          attachment := None; webhookId := None |}
     = None
  /\ getMimeType {| mimeType := Some "" |}
       {| params := ∅; formParams := {["format" := "csv"]};
          attachment := Some {| dataBuffer := None; mime := Some "image/png" |};
          webhookId := None |}
     = Some "image/png".
Proof.
  split; [|split].
  - destruct (getMimeType_sources {| mimeType := Some "" |}
                {| params := ∅; formParams := {["format" := "json_detail"]};
                   attachment := Some {| dataBuffer := None; mime := Some "" |};
                   webhookId := None |}) as (_ & _ & H & _).
    destruct (H eq_refl eq_refl) as (Htable & _).
    apply (Htable "json_detail"); [|reflexivity].
    do 5 (apply elem_of_cons; right). apply elem_of_cons. left. reflexivity.
  - destruct (getMimeType_sources {| mimeType := Some "" |}
                {| params := ∅; formParams := {["format" := "pdf"]};
                   attachment := None; webhookId := None |}) as (_ & _ & H & _).
    destruct (H eq_refl eq_refl) as (_ & Hother & _).
    apply (Hother "pdf"); [reflexivity|].
    intros Hin.
    repeat (apply elem_of_cons in Hin as [Hin|Hin]; [discriminate|]).
    apply elem_of_nil in Hin. exact Hin.
  - destruct (getMimeType_sources {| mimeType := Some "" |}
                {| params := ∅; formParams := {["format" := "csv"]};
                   attachment := Some {| dataBuffer := None; mime := Some "image/png" |};
                   webhookId := None |}) as (_ & H & _).
    apply H; reflexivity.
Defined.

Lemma sendData_unfold (w : World) (this : t) (filename : string)
    (request : ActionRequest) (drive : Drive) :
  sendData w this filename request drive =
    (emit CallStream ;;
     emit (Log "info" "Creating new file in Drive" (webhookId request)) ;;
     catch
       (call (CallFilesCreate drive (upload_params this filename request))
             (of_api (files_create w drive (upload_params this filename request))))
       (fun e =>
          let* e' := sanitizeGaxiosError e in
          emit (Log "error" (to_string w e') (webhookId request)) ;;
          throw e')).
Proof. reflexivity. Qed.

Lemma sendData_accepted (w : World) (this : t) (filename : string)
    (request : ActionRequest) (drive : Drive) :
  files_create w drive (upload_params this filename request) = ApiOk tt ->
  sendData w this filename request drive =
    ([CallStream;
      Log "info" "Creating new file in Drive" (webhookId request);
      CallFilesCreate drive (upload_params this filename request)],
     Resolved tt).
Proof. intros H. rewrite sendData_unfold, H. reflexivity. Qed.

Lemma sendData_hanging (w : World) (this : t) (filename : string)
    (request : ActionRequest) (drive : Drive) :
  files_create w drive (upload_params this filename request) = ApiHang ->
  sendData w this filename request drive =
    ([CallStream;
      Log "info" "Creating new file in Drive" (webhookId request);
      CallFilesCreate drive (upload_params this filename request)],
     Pending).
Proof. intros H. rewrite sendData_unfold, H. reflexivity. Qed.

Lemma sendData_refused (w : World) (this : t) (filename : string)
    (request : ActionRequest) (drive : Drive) (ps : list (string * value)) :
  files_create w drive (upload_params this filename request) = ApiErr ps ->
  exists ps',
    sendData w this filename request drive =
      ([CallStream;
        Log "info" "Creating new file in Drive" (webhookId request);
        CallFilesCreate drive (upload_params this filename request);
        Log "error" (to_string w (VObj ps')) (webhookId request)],
       Rejected (VObj ps'))
    /\ (forall k, k <> "config" -> k <> "response" -> assoc k ps' = assoc k ps).
Proof.
  intros H. rewrite sendData_unfold, H.
  destruct (sanitize_object_keeps ps) as (ps' & Hs & Hkeep).
  exists ps'. split; [|exact Hkeep].
  rewrite !bind_emit. unfold call, of_api. cbn [catch]. rewrite Hs, bind_ret.
  reflexivity.
Qed.

Lemma upload_params_drive (this : t) (filename : string) (request : ActionRequest)
    (search : string) :
  fm_driveId (requestBody (upload_params this filename request))
    = lo_driveId (list_options request search)
  /\ cp_supportsAllDrives (upload_params this filename request)
     = lo_supportsAllDrives (list_options request search).
Proof.
  unfold upload_params, list_options.
  destruct (formParams request !! "drive") as [d|];
    [destruct (negb (String.eqb d "mydrive"))|]; split; reflexivity.
Qed.

Lemma upload_params_file (this : t) (filename : string) (request : ActionRequest) :
  fm_name (requestBody (upload_params this filename request)) = filename
  /\ fm_mimeType (requestBody (upload_params this filename request))
     = getMimeType this request.
Proof.
  unfold upload_params.
  destruct (formParams request !! "drive") as [d|];
    [destruct (negb (String.eqb d "mydrive"))|]; split; reflexivity.
Qed.

Lemma upload_params_explicit (this : t) (filename : string)
    (request : ActionRequest) :
  upload_params this filename request =
    {| requestBody :=
         {| fm_name := filename;
            fm_mimeType := getMimeType this request;
            fm_parents :=
              match formParams request !! "folder" with
              | Some folder => if String.eqb folder "" then None else Some [folder]
              | None => None
              end;
            fm_driveId :=
              match formParams request !! "drive" with
              | Some d => if String.eqb d "mydrive" then None else Some d
              | None => None
              end |};
       cp_supportsAllDrives :=
         match formParams request !! "drive" with
         | Some d => if String.eqb d "mydrive" then None else Some true
         | None => None
         end |}.
Proof.
  unfold upload_params.
  assert (Hfolder :
    (if truthy_str (formParams request !! "folder")
     then option_map (fun f => [f]) (formParams request !! "folder")
     else None)
    = match formParams request !! "folder" with
      | Some folder => if String.eqb folder "" then None else Some [folder]
      | None => None
      end).
  { destruct (formParams request !! "folder") as [folder|]; [|reflexivity].
    unfold truthy_str, of_opt, truthy.
    destruct (String.eqb folder ""); reflexivity. }
  destruct (formParams request !! "drive") as [d|]; cbn [fm_name fm_mimeType fm_parents].
  - destruct (String.eqb d "mydrive"); cbn [negb]; rewrite Hfolder; reflexivity.
  - rewrite Hfolder. reflexivity.
Qed.

(** X3. [sendData] opens the stream, logs "Creating new file in Drive"
    and calls [drive.files.create] exactly once, with a file of the given
    name, the type of [getMimeType], the folder of [formParams.folder] as
    only parent when that is not empty, and the drive of
    [formParams.drive] with [supportsAllDrives] exactly when a drive other
    than "mydrive" is chosen, the same drive the folder listing of [form]
    searches. When the provider accepts, nothing more happens and
    [sendData] resolves; when it never answers, [sendData] stays pending;
    when it fails, the error is sanitized, logged at error level with the
    request's webhook id, and rethrown, every property of it other than
    [config] and [response] intact, with no second upload. *)
Theorem sendData_single_upload (w : World) (this : t) (filename : string)
    (request : ActionRequest) (drive : Drive) (p : CreateParams) :
  p = {| requestBody :=
           {| fm_name := filename;
              fm_mimeType := getMimeType this request;
              fm_parents :=
                match formParams request !! "folder" with
                | Some folder => if String.eqb folder "" then None else Some [folder]
                | None => None
                end;
              fm_driveId :=
                match formParams request !! "drive" with
                | Some d => if String.eqb d "mydrive" then None else Some d
                | None => None
                end |};
         cp_supportsAllDrives :=
           match formParams request !! "drive" with
           | Some d => if String.eqb d "mydrive" then None else Some true
           | None => None
           end |} ->
  (forall search,
     lo_driveId (list_options request search) = fm_driveId (requestBody p)
     /\ lo_supportsAllDrives (list_options request search)
        = cp_supportsAllDrives p)
  /\ (files_create w drive p = ApiOk tt ->
      sendData w this filename request drive =
        ([CallStream;
          Log "info" "Creating new file in Drive" (webhookId request);
          CallFilesCreate drive p],
         Resolved tt))
  /\ (files_create w drive p = ApiHang ->
      sendData w this filename request drive =
        ([CallStream;
          Log "info" "Creating new file in Drive" (webhookId request);
          CallFilesCreate drive p],
         Pending))
  /\ (forall ps,
        files_create w drive p = ApiErr ps ->
        exists ps',
          sendData w this filename request drive =
            ([CallStream;
              Log "info" "Creating new file in Drive" (webhookId request);
              CallFilesCreate drive p;
              Log "error" (to_string w (VObj ps')) (webhookId request)],
             Rejected (VObj ps'))
          /\ sanitizeGaxiosError (VObj ps) = ([], Resolved (VObj ps'))
          /\ (forall k, k <> "config" -> k <> "response" ->
                         assoc k ps' = assoc k ps)).
Proof.
  intros Hp. rewrite <- upload_params_explicit in Hp. subst p.
  split; [|split; [|split]].
  - intros search.
    destruct (upload_params_drive this filename request search) as [-> ->].
    split; reflexivity.
  - apply sendData_accepted.
  - apply sendData_hanging.
  - intros ps Hcreate.
    destruct (sanitize_object_keeps ps) as (ps' & Hs & Hkeep).
    exists ps'. split; [|split; [exact Hs | exact Hkeep]].
    rewrite sendData_unfold, Hcreate.
    rewrite !bind_emit. unfold call, of_api. cbn [catch]. rewrite Hs, bind_ret.
    reflexivity.
Qed.

Lemma sendData_single_upload_witness :
  exists redacted,
    redacted =
      VObj [("message", VStr "The user's Drive storage quota has been exceeded.");
            ("code", VNum 403); ("reason", VStr "storageQuotaExceeded");
            ("config",
             VObj [("url", VStr "https://www.googleapis.com/upload/drive/v3/files");
                   ("body", VStr "[REDACTED]"); ("data", VStr "[REDACTED]")])]
    /\ sendData Fixtures.full_drive Sample.this "q3.csv"
         (Sample.authorized [("drive", "0AB"); ("folder", "f1"); ("format", "csv")]
                            (Some "wh-7"))
         (client_of Fixtures.full_drive (VStr Sample.hub_redirect) Sample.tokens)
       = ([CallStream;
           Log "info" "Creating new file in Drive" (Some "wh-7");
           CallFilesCreate
             (client_of Fixtures.full_drive (VStr Sample.hub_redirect)
                        Sample.tokens)
             {| requestBody :=
                  {| fm_name := "q3.csv"; fm_mimeType := Some "text/csv";
                     fm_parents := Some ["f1"]; fm_driveId := Some "0AB" |};
                cp_supportsAllDrives := Some true |};
           Log "error" (to_string Fixtures.full_drive redacted) (Some "wh-7")],
          Rejected redacted).
Proof.
  destruct (sendData_single_upload Fixtures.full_drive Sample.this "q3.csv"
              (Sample.authorized [("drive", "0AB"); ("folder", "f1");
                                  ("format", "csv")] (Some "wh-7"))
              (client_of Fixtures.full_drive (VStr Sample.hub_redirect)
                         Sample.tokens)
              {| requestBody :=
                   {| fm_name := "q3.csv"; fm_mimeType := Some "text/csv";
                      fm_parents := Some ["f1"]; fm_driveId := Some "0AB" |};
                 cp_supportsAllDrives := Some true |}
              eq_refl)
    as (_ & _ & _ & Hfail).
  destruct (Hfail Fixtures.quota_exceeded eq_refl) as (ps' & Hrun & Hs & _).
  exists (VObj ps'). split; [|exact Hrun].
  vm_compute in Hs. injection Hs as <-. reflexivity.
Defined.

End Upload.

(** ** Listing folders page by page *)

Module Pagination.

Import GoogleDriveAction.

Lemma pagedFileList_chain (w : World) (drive : Drive) (options : ListOptions)
    (r : FileList) (rest : list FileList) :
  listing w drive options r rest ->
  forall (fuel : nat) (acc : list (option Schema_File)),
    (length rest <= fuel)%nat ->
    pagedFileList w fuel drive options acc (Some r) =
      (page_calls drive options r rest, Resolved (collected acc (r :: rest))).
Proof.
  induction 1 as [r Hlast | r next rest Htok Hnext _ IH]; intros fuel acc Hfuel.
  - rewrite Runs.pagedFileList_last_page by exact Hlast. reflexivity.
  - destruct fuel as [|fuel]; [simpl in Hfuel; lia|].
    rewrite Runs.pagedFileList_next_page by exact Htok. cbv zeta.
    rewrite Hnext. simpl of_api. rewrite bind_call_resolved.
    rewrite IH by (simpl in Hfuel; lia). reflexivity.
Qed.

Lemma page_calls_length (drive : Drive) (options : ListOptions) (r : FileList)
    (rest : list FileList) :
  length (page_calls drive options r rest) = length rest.
Proof.
  revert r. induction rest as [|next rest IH]; intros r; simpl; [reflexivity|].
  rewrite IH. reflexivity.
Qed.

Lemma folder_options_defined (fs : list Schema_File) :
  folder_options (map Some fs) = ret (selectable fs).
Proof.
  induction fs as [|f fs IH]; [reflexivity|].
  cbn [map folder_options]. rewrite IH, bind_ret. unfold selectable. simpl.
  destruct (is_defined (file_id f) && is_defined (file_name f)); reflexivity.
Qed.

(** X4. A listing served in several pages is fetched with one further
    call per page, each carrying the token of the page before it, and the
    files come back in the order served; the last page, which has no
    token, triggers no call. *)
Theorem pagedFileList_collects (w : World) (drive : Drive) (options : ListOptions)
    (r : FileList) (rest : list FileList) (fuel : nat)
    (acc : list (option Schema_File)) :
  listing w drive options r rest ->
  (length rest <= fuel)%nat ->
  result (pagedFileList w fuel drive options acc (Some r))
    = Resolved (collected acc (r :: rest))
  /\ events (pagedFileList w fuel drive options acc (Some r))
     = page_calls drive options r rest
  /\ length (events (pagedFileList w fuel drive options acc (Some r)))
     = length rest.
Proof.
  intros Hl Hfuel. rewrite (pagedFileList_chain w drive options r rest Hl fuel acc Hfuel).
  split; [reflexivity|]. split; [reflexivity|]. apply page_calls_length.
Qed.

Lemma pagedFileList_collects_witness :
  result (pagedFileList Fixtures.two_pages 1
            (client_of Fixtures.two_pages (VStr Sample.hub_redirect) Sample.tokens)
            (list_options (Sample.authorized [("search", "")] None) "")
            [] (Some Fixtures.page_one))
  = Resolved
      [Some {| file_id := VStr "f1"; file_name := VStr "Reports" |};
       Some {| file_id := VStr "f2"; file_name := VUndef |};
       Some {| file_id := VStr "f3"; file_name := VStr "Archive" |}].
Proof.
  destruct (pagedFileList_collects Fixtures.two_pages
              (client_of Fixtures.two_pages (VStr Sample.hub_redirect) Sample.tokens)
              (list_options (Sample.authorized [("search", "")] None) "")
              Fixtures.page_one [Fixtures.page_two] 1 []) as (H & _).
  - apply listing_next; [reflexivity | reflexivity |].
    apply listing_last. reflexivity.
  - simpl. lia.
  - rewrite H. reflexivity.
Defined.

Lemma bind_settled {A B} (t : list event) (a : A) (k : A -> M B) :
  bind (t, Resolved a) k = (t ++ events (k a), result (k a)).
Proof. unfold bind. destruct (k a); reflexivity. Qed.

Lemma result_pair {A} (t : list event) (o : outcome A) : result (t, o) = o.
Proof. reflexivity. Qed.

Lemma events_pair {A} (t : list event) (o : outcome A) : events (t, o) = t.
Proof. reflexivity. Qed.

Lemma first_page_served (e : event) (h : value -> M (option FileList))
    (r : FileList) :
  catch (let* r0 := call e (of_api (ApiOk r)) in ret (Some r0)) h
  = ([e], Resolved (Some r)).
Proof. reflexivity. Qed.

Lemma folder_fields_listed (w : World) (fuel : nat) (request : ActionRequest)
    (drive : Drive) (search : string) (r : FileList) (rest : list FileList)
    (fs : list Schema_File) :
  files_list w drive (list_options request search) = ApiOk r ->
  listing w drive (list_options request search) r rest ->
  collected [] (r :: rest) = map Some fs ->
  (length rest <= fuel)%nat ->
  folder_fields w fuel request drive search =
    (CallFilesList drive (list_options request search)
     :: page_calls drive (list_options request search) r rest,
     Resolved [folder_field (drive_root :: selectable fs) (VStr "root");
               filename_field]).
Proof.
  intros Hfirst Hlisting Hfiles Hfuel.
  unfold folder_fields. rewrite Hfirst.
  rewrite (first_page_served _ _ r), bind_settled.
  rewrite (pagedFileList_chain w _ _ r rest Hlisting fuel [] Hfuel), bind_settled.
  rewrite Hfiles, folder_options_defined, !bind_ret.
  simpl. rewrite app_nil_r. reflexivity.
Qed.

(** Enter the authorized branch of [form] up to the drive listing. *)
Ltac enter_form Hst Hdrives :=
  open_state Hst;
  unfold form;
  match goal with
  | Hp : params _ !! "state_json" = _, Hn : truthy (VStr _) = _ |- _ =>
      rewrite Hp, Hn
  end;
  unfold form_authorized; prologue; cbn [andb];
  unfold driveClientFromRequest; rewrite bind_ret;
  match goal with
  | |- context [getDrives ?w (google_drive (setCredentials (oauth2Client ?w ?r) ?t))] =>
      fold (client_of w r t)
  end;
  rewrite (FormNegotiation.getDrives_resolved _ _ _ Hdrives).

(** X5. When the user has entered a search, the form offers, after the
    drive select, a folder select made of "Drive Root" followed by every
    listed file that has both an id and a name, in the order the provider
    served them, with "root" as the default; then the name, fetch and
    search fields, and the state echoed. *)
Theorem form_offers_listed_folders (w : World) (fuel : nat)
    (request : ActionRequest) (tokens redirect : value) (dl : DriveList)
    (search : string) (r : FileList) (rest : list FileList)
    (fs : list Schema_File) :
  continuation w request = Some (tokens, redirect) ->
  drives_list w (client_of w redirect tokens) 50 = ApiOk dl ->
  formParams request !! "search" = Some search ->
  files_list w (client_of w redirect tokens) (list_options request search)
    = ApiOk r ->
  listing w (client_of w redirect tokens) (list_options request search) r rest ->
  collected [] (r :: rest) = map Some fs ->
  (length rest <= fuel)%nat ->
  form w fuel request =
    (CallDrivesList (client_of w redirect tokens) 50
     :: CallFilesList (client_of w redirect tokens) (list_options request search)
     :: page_calls (client_of w redirect tokens) (list_options request search)
                   r rest,
     Resolved
       {| fields :=
            [drive_field (my_drive :: shared_options dl) (VStr "mydrive");
             folder_field (drive_root :: selectable fs) (VStr "root");
             filename_field; fetch_field; search_field];
          state := Some (echoed_state w tokens redirect) |}).
Proof.
  intros Hst Hdrives Hsearch Hfirst Hlisting Hfiles Hfuel.
  enter_form Hst Hdrives. rewrite Hsearch.
  rewrite (folder_fields_listed w fuel request _ search r rest fs
             Hfirst Hlisting Hfiles Hfuel).
  simpl. rewrite !app_nil_r. reflexivity.
Qed.

Lemma form_offers_listed_folders_witness :
  result (form Fixtures.two_pages 1 (Sample.authorized [("search", "")] None))
  = Resolved
      {| fields :=
           [drive_field (my_drive :: shared_options Sample.shared_drives)
                        (VStr "mydrive");
            folder_field
              [drive_root;
               {| opt_name := VStr "f1"; opt_label := VStr "Reports" |};
               {| opt_name := VStr "f3"; opt_label := VStr "Archive" |}]
              (VStr "root");
            filename_field; fetch_field; search_field];
         state := Some (echoed_state Fixtures.two_pages Sample.tokens
                                     (VStr Sample.hub_redirect)) |}.
Proof.
  rewrite (form_offers_listed_folders Fixtures.two_pages 1
             (Sample.authorized [("search", "")] None)
             Sample.tokens (VStr Sample.hub_redirect) Sample.shared_drives ""
             Fixtures.page_one [Fixtures.page_two]
             [ {| file_id := VStr "f1"; file_name := VStr "Reports" |};
               {| file_id := VStr "f2"; file_name := VUndef |};
               {| file_id := VStr "f3"; file_name := VStr "Archive" |} ]).
  - reflexivity.
  - vm_compute; reflexivity.
  - vm_compute; reflexivity.
  - vm_compute; reflexivity.
  - vm_compute; reflexivity.
  - apply listing_next; [reflexivity | reflexivity |].
    apply listing_last. reflexivity.
  - reflexivity.
  - simpl. lia.
Defined.

(** X6. Nothing bounds the pages followed: against a provider that
    names a next page with every page, a form request carrying a search
    never settles, however many pages are allowed for. *)
Theorem form_follows_pages_without_bound (w : World) (request : ActionRequest)
    (tokens redirect : value) (dl : DriveList) (search : string) (r : FileList) :
  continuation w request = Some (tokens, redirect) ->
  drives_list w (client_of w redirect tokens) 50 = ApiOk dl ->
  formParams request !! "search" = Some search ->
  (forall o, files_list w (client_of w redirect tokens) o = ApiOk r) ->
  truthy (nextPageToken r) = true ->
  forall fuel : nat, result (form w fuel request) = Pending.
Proof.
  intros Hst Hdrives Hsearch Hall Htok fuel.
  enter_form Hst Hdrives. rewrite Hsearch.
  assert (Hff : result (folder_fields w fuel request (client_of w redirect tokens)
                          search) = Pending).
  { unfold folder_fields. rewrite Hall, (first_page_served _ _ r), bind_settled.
    rewrite result_pair, result_bind.
    rewrite (Runs.pagedFileList_endless w _ _ r Hall Htok). reflexivity. }
  rewrite result_bind, result_catch, bind_settled, result_pair.
  cbn [first_name]. rewrite bind_ret, !result_bind, Hff. reflexivity.
Qed.

Lemma form_follows_pages_without_bound_witness :
  result (form Fixtures.endless 1000 (Sample.authorized [("search", "")] None))
  = Pending.
Proof.
  apply (form_follows_pages_without_bound Fixtures.endless
           (Sample.authorized [("search", "")] None)
           Sample.tokens (VStr Sample.hub_redirect) Sample.shared_drives ""
           Fixtures.page_one).
  - vm_compute; reflexivity.
  - vm_compute; reflexivity.
  - vm_compute; reflexivity.
  - intros o. reflexivity.
  - reflexivity.
Defined.

End Pagination.

(** ** What [form] can answer *)

Module FormShape.

Import GoogleDriveAction.

Ltac invert H :=
  let a := fresh "a" in
  let Ha := fresh "Ha" in
  apply bind_resolved_inv in H as (a & Ha & H); cbv beta in H.






















Lemma parse_inv (w : World) (s : string) (v : value) :
  result (parse w s) = Resolved v -> JSON_parse w s = Some v.
Proof.
  unfold parse. destruct (JSON_parse w s); simpl; [|discriminate].
  intros [= ->]. reflexivity.
Qed.

Lemma read_inv (v : value) (k : string) (x : value) :
  result (read v k) = Resolved x -> get v k = Some x.
Proof.
  unfold read. destruct (get v k); simpl; [|discriminate].
  intros [= ->]. reflexivity.
Qed.

Lemma get_total (v : value) (k k' : string) (x : value) :
  get v k = Some x -> exists y, get v k' = Some y.
Proof. destruct v; simpl; try discriminate; eauto. Qed.

Lemma folder_fields_shape (w : World) (fuel : nat) (request : ActionRequest)
    (drive : Drive) (search : string) (fs : list ActionFormField) :
  result (folder_fields w fuel request drive search) = Resolved fs ->
  map name fs = ["folder"; "filename"].
Proof.
  unfold folder_fields. intros H. do 4 invert H.
  simpl in H. injection H as <-. reflexivity.
Qed.

Lemma form_authorized_shape (w : World) (fuel : nat) (request : ActionRequest)
    (state_json : string) (f : ActionForm) :
  result (form_authorized w fuel request state_json) = Resolved (Some f) ->
  exists stateJson tokens redirect,
    JSON_parse w state_json = Some stateJson
    /\ get stateJson "tokens" = Some tokens
    /\ get stateJson "redirect" = Some redirect
    /\ truthy tokens = true /\ truthy redirect = true
    /\ state f = Some (echoed_state w tokens redirect)
    /\ map name (fields f) =
         match formParams request !! "search" with
         | Some _ => ["drive"; "folder"; "filename"; "fetch"; "search"]
         | None => ["drive"; "fetch"; "search"]
         end.
Proof.
  unfold form_authorized. intros H. do 3 invert H.
  apply parse_inv in Ha. apply read_inv in Ha0.
  destruct (truthy a0) eqn:Ht; [|discriminate].
  destruct (truthy a1) eqn:Hr; [|discriminate].
  apply read_inv in Ha1. cbn [andb] in H.
  do 4 invert H. simpl in H. injection H as <-.
  exists a, a0, a1. repeat split; try assumption.
  cbn [fields]. rewrite map_app.
  destruct (formParams request !! "search") as [search|].
  - invert Ha5. simpl in Ha5. injection Ha5 as <-.
    apply folder_fields_shape in Ha6. simpl. rewrite Ha6. reflexivity.
  - simpl in Ha5. injection Ha5 as <-. reflexivity.
Qed.

Lemma loginForm_resolved (w : World) (request : ActionRequest) (c : string) :
  crypto_encrypt w (login_plaintext w request) = Resolved c ->
  loginForm w request =
    ([CallEncrypt (login_plaintext w request);
      Log "debug"
          ("Login form, OAuthURL" +:+ env_str w "ACTION_HUB_BASE_URL"
           +:+ "/actions/google_drive/oauth?state=" +:+ c) None],
     Resolved
       {| fields :=
            [ {| name := "login"; label := "Log in";
                 description :=
                   Some ("In order to send to Google Drive, you will need to log in"
                         +:+ " once to your Google account.");
                 type := "oauth_link_google";
                 required := None; interactive := None; options := None;
                 default := None;
                 oauth_url :=
                   Some (env_str w "ACTION_HUB_BASE_URL"
                         +:+ "/actions/google_drive/oauth?state=" +:+ c) |} ];
          state := Some new_ActionState |}).
Proof.
  intros H. unfold loginForm. fold (login_plaintext w request). rewrite H.
  reflexivity.
Qed.

Lemma loginForm_inv (w : World) (request : ActionRequest) (f : ActionForm) :
  result (loginForm w request) = Resolved f ->
  map name (fields f) = ["login"] /\ state f = Some new_ActionState.
Proof.
  destruct (crypto_encrypt w (login_plaintext w request)) as [c|r|] eqn:E.
  - rewrite (loginForm_resolved w request c E). simpl. intros [= <-]. split; reflexivity.
  - unfold loginForm. fold (login_plaintext w request). rewrite E. discriminate.
  - unfold loginForm. fold (login_plaintext w request). rewrite E. discriminate.
Qed.

Lemma form_echoes (w : World) (fuel : nat) (request : ActionRequest)
    (f : ActionForm) :
  result (form w fuel request) = Resolved f ->
  map name (fields f) <> ["login"] ->
  exists tokens redirect,
    continuation w request = Some (tokens, redirect)
    /\ state f = Some (echoed_state w tokens redirect).
Proof.
  unfold form. intros H Hnot. invert H. destruct a as [f'|].
  - simpl in H. injection H as ->.
    destruct (params request !! "state_json") as [sj|] eqn:Hp; [|discriminate].
    destruct (truthy (VStr sj)) eqn:Hne; [|discriminate].
    apply catch_resolved_inv in Ha as [Ha|(r & _ & Ha)].
    + apply form_authorized_shape in Ha
        as (v & t & r & Hj & Ht & Hr & Htt & Htr & Hstate & _).
      exists t, r. split; [|exact Hstate].
      unfold continuation. rewrite Hp, Hne, Hj, Ht, Hr, Htt, Htr. reflexivity.
    + do 2 invert Ha. discriminate.
  - exfalso. apply Hnot.
    apply (loginForm_inv w request f H).
Qed.

(** X8. A form that [form] returns has one of three shapes. It is the
    login form, with the single field [login] and an empty state; or its
    fields are [drive], [fetch], [search] when the request has no search
    yet, and [drive], [folder], [filename], [fetch], [search] when it has
    one. In the last two cases the request carried a usable continuation
    state, and the form echoes exactly its tokens and redirect. *)
Theorem form_shapes (w : World) (fuel : nat) (request : ActionRequest)
    (f : ActionForm) :
  result (form w fuel request) = Resolved f ->
  (map name (fields f) = ["login"] /\ state f = Some new_ActionState)
  \/ (exists tokens redirect,
        continuation w request = Some (tokens, redirect)
        /\ state f = Some (echoed_state w tokens redirect)
        /\ map name (fields f) =
             match formParams request !! "search" with
             | Some _ => ["drive"; "folder"; "filename"; "fetch"; "search"]
             | None => ["drive"; "fetch"; "search"]
             end).
Proof.
  unfold form. intros H. invert H. destruct a as [f'|].
  - simpl in H. injection H as ->. right.
    destruct (params request !! "state_json") as [sj|] eqn:Hp; [|discriminate].
    destruct (truthy (VStr sj)) eqn:Hne; [|discriminate].
    apply catch_resolved_inv in Ha as [Ha|(r & _ & Ha)].
    + apply form_authorized_shape in Ha
        as (v & t & r & Hj & Ht & Hr & Htt & Htr & Hstate & Hnames).
      exists t, r. split; [|split; assumption].
      unfold continuation. rewrite Hp, Hne, Hj, Ht, Hr, Htt, Htr. reflexivity.
    + do 2 invert Ha. discriminate.
  - left. apply loginForm_inv with (w := w) (request := request). exact H.
Qed.

Lemma form_shapes_witness :
  map name (fields
    {| fields := [drive_field (my_drive :: shared_options Sample.shared_drives)
                              (VStr "mydrive");
                  fetch_field; search_field];
       state := Some (echoed_state Sample.granted Sample.tokens
                                   (VStr Sample.hub_redirect)) |})
  = ["drive"; "fetch"; "search"].
Proof.
  destruct (form_shapes Sample.granted 0 (Sample.authorized [] None)
              {| fields := [drive_field (my_drive :: shared_options Sample.shared_drives)
                                        (VStr "mydrive");
                            fetch_field; search_field];
                 state := Some (echoed_state Sample.granted Sample.tokens
                                             (VStr Sample.hub_redirect)) |})
    as [[H _] | (t & r & _ & _ & H)].
  - vm_compute; reflexivity.
  - vm_compute in H. discriminate.
  - exact H.
Defined.

Lemma form_unusable (w : World) (fuel : nat) (request : ActionRequest) :
  continuation w request = None ->
  result (form w fuel request) = result (loginForm w request)
  /\ calls (events (form w fuel request)) = calls (events (loginForm w request)).
Proof.
  unfold continuation, form. intros Hc.
  destruct (params request !! "state_json") as [sj|];
    [|rewrite bind_ret; split; reflexivity].
  destruct (truthy (VStr sj)); [|rewrite bind_ret; split; reflexivity].
  unfold form_authorized, parse.
  destruct (JSON_parse w sj) as [v|].
  - rewrite bind_ret. unfold read.
    destruct (get v "tokens") as [t|] eqn:Ht.
    + destruct (get_total v "tokens" "redirect" t Ht) as [r Hr].
      rewrite Hr in *. rewrite bind_ret.
      destruct (truthy t) eqn:Htt.
      * rewrite bind_ret. destruct (truthy r); [discriminate|].
        cbn [andb catch ret]. rewrite bind_ret. split; reflexivity.
      * rewrite bind_ret. cbn [andb catch ret]. rewrite bind_ret. split; reflexivity.
    + rewrite bind_throw. unfold throw at 1, TypeError. cbn [catch].
      rewrite (M_eta (loginForm w request)). split; reflexivity.
  - rewrite bind_throw. unfold throw at 1, SyntaxError. cbn [catch].
    rewrite (M_eta (loginForm w request)). split; reflexivity.
Qed.

(** X9. Without a usable continuation state (none, an empty one, one
    that does not parse, [null], or one lacking tokens or redirect),
    [form] contacts no provider: its only external call is the encryption
    of [{stateurl: params.state_url}], and it returns the login form,
    whose single field links to the hub's [oauth] route for this action
    with that ciphertext as [state]. *)
Theorem form_without_state_is_login (w : World) (fuel : nat)
    (request : ActionRequest) (c : string) :
  continuation w request = None ->
  crypto_encrypt w (login_plaintext w request) = Resolved c ->
  calls (events (form w fuel request)) = [CallEncrypt (login_plaintext w request)]
  /\ exists fld,
       result (form w fuel request)
         = Resolved {| fields := [fld]; state := Some new_ActionState |}
       /\ name fld = "login"
       /\ type fld = "oauth_link_google"
       /\ oauth_url fld =
            Some (env_str w "ACTION_HUB_BASE_URL"
                  +:+ "/actions/google_drive/oauth?state=" +:+ c).
Proof.
  intros Hc Henc. destruct (form_unusable w fuel request Hc) as [-> ->].
  rewrite (loginForm_resolved w request c Henc).
  split; [reflexivity|]. eexists. split; [reflexivity|]. repeat split.
Qed.

Lemma form_without_state_is_login_witness :
  calls (events (form Sample.granted 0
                   (Sample.request_with
                      [("state_json", "null"); ("state_url", Sample.state_url)]
                      [("search", "Q3")] None)))
  = [CallEncrypt (Sample.stringify Sample.login_payload)].
Proof.
  destruct (form_without_state_is_login Sample.granted 0
              (Sample.request_with
                 [("state_json", "null"); ("state_url", Sample.state_url)]
                 [("search", "Q3")] None)
              Sample.issued_state) as [H _].
  - vm_compute; reflexivity.
  - vm_compute; reflexivity.
  - rewrite H. vm_compute; reflexivity.
Defined.

(** X21. When the provider refuses the drive listing of a request with
    a usable state, [form] logs one warning and reverts to the login
    form: the drive listing and the encryption of the login state are its
    only external calls. *)
Theorem form_reverts_to_login (w : World) (fuel : nat) (request : ActionRequest)
    (tokens redirect : value) (ps : list (string * value)) (c : string) :
  continuation w request = Some (tokens, redirect) ->
  drives_list w (client_of w redirect tokens) 50 = ApiErr ps ->
  crypto_encrypt w (login_plaintext w request) = Resolved c ->
  calls (events (form w fuel request))
    = [CallDrivesList (client_of w redirect tokens) 50;
       CallEncrypt (login_plaintext w request)]
  /\ result (form w fuel request) = result (loginForm w request)
  /\ exists msg, events (form w fuel request) !! 1%nat
                 = Some (Log "warn" msg (webhookId request)).
Proof.
  intros Hst Hdrives Henc. open_state Hst.
  unfold form. rewrite Hparam, Hnonempty. unfold form_authorized.
  prologue. cbn [andb]. unfold driveClientFromRequest. rewrite bind_ret.
  fold (client_of w redirect tokens). unfold getDrives. rewrite Hdrives.
  simpl of_api. rewrite bind_call_rejected. cbn [bind catch].
  destruct (Upload.sanitize_object_keeps ps) as (ps' & -> & _).
  rewrite (loginForm_resolved w request c Henc).
  split; [reflexivity|]. split; [reflexivity|]. eexists. reflexivity.
Qed.

Lemma form_reverts_to_login_witness :
  calls (events (form Sample.revoked 0 (Sample.authorized [] (Some "wh-1"))))
  = [CallDrivesList
       (client_of Sample.revoked (VStr Sample.hub_redirect) Sample.tokens) 50;
     CallEncrypt (login_plaintext Sample.revoked
                    (Sample.authorized [] (Some "wh-1")))].
Proof.
  destruct (form_reverts_to_login Sample.revoked 0
              (Sample.authorized [] (Some "wh-1")) Sample.tokens
              (VStr Sample.hub_redirect) Sample.unauthorized
              (Sample.key_tag +:+ "{}")) as [H _].
  - vm_compute; reflexivity.
  - vm_compute; reflexivity.
  - vm_compute; reflexivity.
  - exact H.
Defined.

End FormShape.

(** ** Round trips of the state *)

Module Rounds.

Import GoogleDriveAction.

(** X10. The state issued by the login form survives the redirect: when
    the codec decrypts what it encrypted and the JSON built-ins read back
    what they wrote, [oauthFetchInfo], given the [state] of the login link
    and a code the provider accepts, posts the tokens to the very
    [state_url] of the request the login form was built for. *)
Theorem login_state_round_trip (w : World) (request : ActionRequest)
    (urlParams : gmap string string) (redirectUri : string) (c : string)
    (payload : list (string * value)) (tokens : value) :
  crypto_encrypt w (login_plaintext w request) = Resolved c ->
  crypto_decrypt w (VStr c) = Resolved (login_plaintext w request) ->
  JSON_parse w (login_plaintext w request) = Some (VObj payload) ->
  assoc "stateurl" payload = of_opt (params request !! "state_url") ->
  urlParams !! "state" = Some c ->
  getToken w (oauth2Client w (VStr redirectUri)) (of_opt (urlParams !! "code"))
    = ApiOk tokens ->
  (exists fld,
     result (loginForm w request)
       = Resolved {| fields := [fld]; state := Some new_ActionState |}
     /\ oauth_url fld =
          Some (env_str w "ACTION_HUB_BASE_URL"
                +:+ "/actions/google_drive/oauth?state=" +:+ c))
  /\ calls (events (oauthFetchInfo w urlParams redirectUri)) =
       [CallDecrypt (VStr c);
        CallGetToken (oauth2Client w (VStr redirectUri))
                     (of_opt (urlParams !! "code"));
        CallPost (of_opt (params request !! "state_url"))
                 (JSON_stringify w
                    (VObj [("tokens", tokens); ("redirect", VStr redirectUri)]))].
Proof.
  intros Henc Hdec Hparse Hurl Hst Htok. split.
  - rewrite (FormShape.loginForm_resolved w request c Henc).
    eexists. split; reflexivity.
  - unfold oauthFetchInfo, getAccessTokenCredentialsFromCode, parse.
    rewrite Hst. simpl of_opt. rewrite Hdec. simpl catch.
    rewrite bind_call_resolved, Pagination.events_pair. rewrite Htok. simpl of_api.
    rewrite bind_call_resolved, Pagination.events_pair, Hparse, bind_ret.
    rewrite read_object, bind_ret, Hurl.
    destruct (https_post w _ _) as [[]|ps|]; reflexivity.
Qed.

Lemma login_state_round_trip_witness :
  calls (events (oauthFetchInfo Sample.granted
                   (Sample.callback Sample.issued_state) Sample.hub_redirect))
  = [CallDecrypt (VStr Sample.issued_state);
     CallGetToken (oauth2Client Sample.granted (VStr Sample.hub_redirect))
                  (VStr "4/0Ab");
     CallPost (VStr Sample.state_url) (Sample.stringify Sample.usable_state)].
Proof.
  destruct (login_state_round_trip Sample.granted
              (Sample.request_with [("state_url", Sample.state_url)] [] None)
              (Sample.callback Sample.issued_state) Sample.hub_redirect
              Sample.issued_state [("stateurl", VStr Sample.state_url)]
              Sample.tokens) as [_ H].
  - vm_compute; reflexivity.
  - vm_compute; reflexivity.
  - vm_compute; reflexivity.
  - vm_compute; reflexivity.
  - vm_compute; reflexivity.
  - vm_compute; reflexivity.
  - rewrite H. vm_compute; reflexivity.
Defined.

Lemma continuation_of_echo (w : World) (request : ActionRequest)
    (tokens redirect : value) :
  truthy tokens = true -> truthy redirect = true ->
  params request !! "state_json" = data (echoed_state w tokens redirect) ->
  JSON_parse w (JSON_stringify w (VObj [("tokens", tokens); ("redirect", redirect)]))
    = Some (VObj [("tokens", tokens); ("redirect", redirect)]) ->
  truthy (VStr (JSON_stringify w (VObj [("tokens", tokens); ("redirect", redirect)])))
    = true ->
  continuation w request = Some (tokens, redirect).
Proof.
  intros Ht Hr Hp Hj Hne. unfold continuation. rewrite Hp. cbn [data echoed_state].
  rewrite Hne, Hj. cbn [get assoc String.eqb Ascii.eqb Bool.eqb].
  rewrite Ht, Hr. reflexivity.
Qed.

(** X11. The state blob is stable across rounds of the negotiation: the
    state [form] echoes, sent back as [state_json], is again a usable
    continuation state with the same tokens and redirect (the JSON
    built-ins reading back what they wrote), so the next [form] echoes
    the same blob, and [oauthCheck] probes the provider with the same
    client. *)
Theorem echoed_state_is_stable (w : World) (fuel : nat)
    (request next : ActionRequest) (tokens redirect : value) (f : ActionForm) :
  continuation w request = Some (tokens, redirect) ->
  result (form w fuel request) = Resolved f ->
  map name (fields f) <> ["login"] ->
  params next !! "state_json" = (state f) ≫= data ->
  JSON_parse w (JSON_stringify w (VObj [("tokens", tokens); ("redirect", redirect)]))
    = Some (VObj [("tokens", tokens); ("redirect", redirect)]) ->
  truthy (VStr (JSON_stringify w (VObj [("tokens", tokens); ("redirect", redirect)])))
    = true ->
  continuation w next = Some (tokens, redirect)
  /\ (forall f', result (form w fuel next) = Resolved f' ->
                 map name (fields f') <> ["login"] ->
                 state f' = state f)
  /\ calls (events (oauthCheck w next))
     = [CallFilesList (client_of w redirect tokens) probe].
Proof.
  intros Hst Hform Hnot Hp Hj Hne.
  apply FormShape.form_echoes in Hform as (t & r & Hst' & Hstate); [|exact Hnot].
  rewrite Hst in Hst'. injection Hst' as <- <-.
  rewrite Hstate in Hp. simpl in Hp.
  assert (Hnext : continuation w next = Some (tokens, redirect)).
  { pose proof Hst as Hst2. open_state Hst2.
    apply continuation_of_echo; assumption. }
  split; [exact Hnext|]. split.
  - intros f' Hf' Hnot'.
    apply FormShape.form_echoes in Hf' as (t & r & Hst' & Hstate'); [|exact Hnot'].
    rewrite Hnext in Hst'. injection Hst' as <- <-. congruence.
  - pose proof Hnext as Hn. open_state Hn.
    unfold oauthCheck. prologue. cbn [andb].
    unfold driveClientFromRequest. rewrite bind_ret.
    fold (client_of w redirect tokens).
    destruct (files_list w (client_of w redirect tokens) probe); reflexivity.
Qed.

Lemma echoed_state_is_stable_witness :
  continuation Sample.granted (Sample.authorized [("search", "Q3")] (Some "wh-2"))
  = Some (Sample.tokens, VStr Sample.hub_redirect).
Proof.
  destruct (echoed_state_is_stable Sample.granted 0
              (Sample.authorized [] None)
              (Sample.authorized [("search", "Q3")] (Some "wh-2"))
              Sample.tokens (VStr Sample.hub_redirect)
              {| fields := [drive_field (my_drive :: shared_options Sample.shared_drives)
                                        (VStr "mydrive");
                            fetch_field; search_field];
                 state := Some (echoed_state Sample.granted Sample.tokens
                                             (VStr Sample.hub_redirect)) |})
    as [H _].
  - vm_compute; reflexivity.
  - vm_compute; reflexivity.
  - vm_compute; discriminate.
  - vm_compute; reflexivity.
  - vm_compute; reflexivity.
  - vm_compute; reflexivity.
  - exact H.
Defined.

End Rounds.

(** ** Outcomes of [oauthCheck] and [execute] *)

Module Outcomes.

Import GoogleDriveAction.

Lemma oauthCheck_usable (w : World) (request : ActionRequest)
    (tokens redirect : value) :
  continuation w request = Some (tokens, redirect) ->
  oauthCheck w request =
    (call (CallFilesList (client_of w redirect tokens) probe)
          (of_api (files_list w (client_of w redirect tokens) probe)) ;;
     ret true).
Proof.
  intros Hst. open_state Hst. unfold oauthCheck. prologue. cbn [andb].
  unfold driveClientFromRequest. rewrite bind_ret. reflexivity.
Qed.

(** Without a usable state the common prologue ends in one of three
    ways, before anything is contacted. *)
Lemma prologue_unusable {A} (w : World) (request : ActionRequest)
    (unusable : A) (k : value -> value -> M A) :
  continuation w request = None ->
  let run :=
    match params request !! "state_json" with
    | Some state_json =>
        if truthy (VStr state_json) then
          let* stateJson := parse w state_json in
          let* tokens := read stateJson "tokens" in
          let* redirect :=
            (if truthy tokens then read stateJson "redirect" else ret VUndef) in
          if truthy tokens && truthy redirect then k tokens redirect
          else ret unusable
        else ret unusable
    | None => ret unusable
    end in
  run = ret unusable \/ run = throw SyntaxError \/ run = throw TypeError.
Proof.
  unfold continuation. intros Hc. cbv zeta.
  destruct (params request !! "state_json") as [sj|]; [|left; reflexivity].
  destruct (truthy (VStr sj)); [|left; reflexivity].
  unfold parse. destruct (JSON_parse w sj) as [v|]; [|right; left; reflexivity].
  rewrite bind_ret. unfold read.
  destruct (get v "tokens") as [t|] eqn:Ht; [|right; right; reflexivity].
  destruct (FormShape.get_total v "tokens" "redirect" t Ht) as [r Hr].
  rewrite Hr in *. rewrite bind_ret.
  destruct (truthy t); rewrite bind_ret.
  - destruct (truthy r); [discriminate | left; reflexivity].
  - left. reflexivity.
Qed.

Lemma oauthCheck_unusable (w : World) (request : ActionRequest) :
  continuation w request = None ->
  oauthCheck w request = ret false
  \/ oauthCheck w request = throw SyntaxError
  \/ oauthCheck w request = throw TypeError.
Proof.
  intros Hc.
  exact (prologue_unusable w request false
           (fun tokens redirect =>
              let* drive := driveClientFromRequest w redirect tokens in
              call (CallFilesList drive probe) (of_api (files_list w drive probe)) ;;
              ret true) Hc).
Qed.

(** X12. [oauthCheck] answers [true] exactly when the request carries a
    usable continuation state and the provider answers the probe; it
    answers [false] only for a request without a usable state, and then
    without contacting the provider; and with a usable state it makes a
    single call, the probe. *)
Theorem oauthCheck_verdicts (w : World) (request : ActionRequest) :
  (result (oauthCheck w request) = Resolved true <->
   exists tokens redirect page,
     continuation w request = Some (tokens, redirect)
     /\ files_list w (client_of w redirect tokens) probe = ApiOk page)
  /\ (result (oauthCheck w request) = Resolved false ->
      continuation w request = None /\ events (oauthCheck w request) = [])
  /\ (forall tokens redirect,
        continuation w request = Some (tokens, redirect) ->
        events (oauthCheck w request)
        = [CallFilesList (client_of w redirect tokens) probe]).
Proof.
  destruct (continuation w request) as [[t r]|] eqn:Hc.
  - rewrite (oauthCheck_usable w request t r Hc).
    split; [|split].
    + split.
      * destruct (files_list w (client_of w r t) probe) as [page|ps|] eqn:E;
          try discriminate. intros _. exists t, r, page. split; [reflexivity | exact E].
      * intros (t' & r' & page & [= <- <-] & E). rewrite E. reflexivity.
    + destruct (files_list w (client_of w r t) probe); discriminate.
    + intros t' r' [= <- <-].
      destruct (files_list w (client_of w r t) probe); reflexivity.
  - split; [|split].
    + split.
      * destruct (oauthCheck_unusable w request Hc) as [-> | [-> | ->]]; discriminate.
      * intros (t & r & page & H & _). discriminate.
    + intros H. split; [reflexivity|].
      destruct (oauthCheck_unusable w request Hc) as [-> | [-> | ->]]; reflexivity.
    + discriminate.
Qed.

Lemma oauthCheck_verdicts_witness :
  result (oauthCheck Sample.granted (Sample.authorized [] None)) = Resolved true.
Proof.
  destruct (oauthCheck_verdicts Sample.granted (Sample.authorized [] None))
    as [[_ H] _].
  apply H. exists Sample.tokens, (VStr Sample.hub_redirect), Sample.one_page.
  split; vm_compute; reflexivity.
Defined.

Lemma execute_unusable (w : World) (this : t) (request : ActionRequest) :
  continuation w request = None ->
  execute w this request = ret (reset_response new_ActionResponse)
  \/ execute w this request = throw SyntaxError
  \/ execute w this request = throw TypeError.
Proof.
  unfold continuation, execute. intros Hc.
  destruct (params request !! "state_json") as [sj|]; [|left; reflexivity].
  destruct (truthy (VStr sj)); [|left; reflexivity]. cbn [negb].
  unfold parse. destruct (JSON_parse w sj) as [v|]; [|right; left; reflexivity].
  rewrite bind_ret. unfold read.
  destruct (get v "tokens") as [tk|] eqn:Ht; [|right; right; reflexivity].
  destruct (FormShape.get_total v "tokens" "redirect" tk Ht) as [r Hr].
  rewrite Hr in *. rewrite bind_ret.
  destruct (truthy tk); rewrite bind_ret.
  - destruct (truthy r); [discriminate | left; reflexivity].
  - left. reflexivity.
Qed.

Lemma execute_nameless (w : World) (this : t) (request : ActionRequest)
    (tokens redirect : value) :
  continuation w request = Some (tokens, redirect) ->
  truthy_str (chosen_filename w request) = false ->
  let bad := HTTP_ERROR_bad_request w in
  let msg := err_description bad +:+ " Error creating filename from request" in
  execute w this request =
    ([Log "error" msg (webhookId request)],
     Resolved
       {| success := false;
          resp_message := VStr msg;
          resp_state := None;
          resp_error :=
            Some {| http_code := VNum (code bad); status_code := status bad;
                    message := msg; location := "ActionContainer";
                    documentation_url := "TODO" |};
          resp_webhookId := webhookId request |}).
Proof.
  intros Hst Hname. open_state Hst. unfold execute. rewrite Hparam, Hnonempty.
  cbn [negb]. prologue. cbn [andb]. unfold driveClientFromRequest.
  rewrite bind_ret. fold (chosen_filename w request). rewrite Hname.
  reflexivity.
Qed.

Lemma execute_named (w : World) (this : t) (request : ActionRequest)
    (tokens redirect : value) (filename : string) :
  continuation w request = Some (tokens, redirect) ->
  chosen_filename w request = Some filename ->
  truthy (VStr filename) = true ->
  let send := sendData w this filename request (client_of w redirect tokens) in
  calls (events (execute w this request)) = calls (events send)
  /\ (result send = Resolved tt ->
      result (execute w this request) = Resolved new_ActionResponse)
  /\ (result send = Pending -> result (execute w this request) = Pending)
  /\ (forall ps,
        result send = Rejected (VObj ps) ->
        exists err,
          result (execute w this request) =
            Resolved {| success := false;
                        resp_message := assoc "message" ps;
                        resp_state := None;
                        resp_error := Some err;
                        resp_webhookId := webhookId request |}
          /\ (truthy (assoc "code" ps) && truthy (assoc "reason" ps) = true ->
              http_code err = assoc "code" ps
              /\ message err = err_description (HTTP_ERROR_internal w) +:+ " "
                               +:+ str_of w (assoc "reason" ps))
          /\ (truthy (assoc "code" ps) && truthy (assoc "reason" ps) = false ->
              err = errorWith w (HTTP_ERROR_internal w)
                      ("Error while sending data "
                       +:+ str_of w (assoc "message" ps)))).
Proof.
  intros Hst Hname Htruthy send. open_state Hst.
  unfold execute. rewrite Hparam, Hnonempty.
  cbn [negb]. prologue. cbn [andb]. unfold driveClientFromRequest.
  rewrite bind_ret. fold (chosen_filename w request).
  unfold truthy_str. rewrite Hname. cbn [of_opt]. rewrite Htruthy.
  fold (client_of w redirect tokens). fold send. clearbody send.
  rewrite events_catch, result_catch, events_bind, result_bind.
  destruct (result send) as [[]|e|] eqn:Hsend.
  - simpl. rewrite app_nil_r. repeat split; try discriminate.
  - split; [|split; [discriminate|split; [discriminate|]]].
    + unfold calls. rewrite List.filter_app.
      match goal with
      | |- _ ++ List.filter is_call (events ?h) = _ =>
          assert (Hh : List.filter is_call (events h) = [])
      end.
      { destruct (get e "message"); [|reflexivity].
        rewrite bind_ret. destruct (get e "code") as [c|]; [|reflexivity].
        rewrite bind_ret. destruct (truthy c).
        - destruct (get e "reason"); [|reflexivity]. rewrite bind_ret. reflexivity.
        - rewrite bind_ret. reflexivity. }
      rewrite Hh, app_nil_r. reflexivity.
    + intros ps [= ->]. cbn [get].
      rewrite !bind_ret.
      destruct (truthy (assoc "code" ps)) eqn:Hcode.
      * rewrite bind_ret. cbn [andb].
        destruct (truthy (assoc "reason" ps)) eqn:Hreason.
        -- eexists. split; [reflexivity|]. split; [intros _; split; reflexivity|].
           discriminate.
        -- eexists. split; [reflexivity|]. split; [discriminate|].
           intros _. reflexivity.
      * rewrite bind_ret. cbn [andb].
        eexists. split; [reflexivity|]. split; [discriminate|].
        intros _. reflexivity.
  - simpl. repeat split; try discriminate.
Qed.

Lemma sendData_throws_objects (w : World) (this : t) (filename : string)
    (request : ActionRequest) (drive : Drive) :
  throws_objects (sendData w this filename request drive).
Proof.
  intros e He.
  destruct (files_create w drive (upload_params this filename request))
    as [[]|ps|] eqn:Hcreate.
  - rewrite (Upload.sendData_accepted w this filename request drive Hcreate) in He.
    discriminate.
  - destruct (Upload.sendData_refused w this filename request drive ps Hcreate)
      as (ps' & Hrun & _).
    rewrite Hrun in He. injection He as <-. eauto.
  - rewrite (Upload.sendData_hanging w this filename request drive Hcreate) in He.
    discriminate.
Qed.

Lemma sendData_calls (w : World) (this : t) (filename : string)
    (request : ActionRequest) (drive : Drive) :
  calls (events (sendData w this filename request drive))
    = [CallStream; CallFilesCreate drive (upload_params this filename request)].
Proof.
  destruct (files_create w drive (upload_params this filename request))
    as [[]|ps|] eqn:Hcreate.
  - rewrite (Upload.sendData_accepted w this filename request drive Hcreate).
    reflexivity.
  - destruct (Upload.sendData_refused w this filename request drive ps Hcreate)
      as (ps' & -> & _).
    reflexivity.
  - rewrite (Upload.sendData_hanging w this filename request drive Hcreate).
    reflexivity.
Qed.

Lemma execute_usable_settles (w : World) (this : t) (request : ActionRequest)
    (tokens redirect : value) :
  continuation w request = Some (tokens, redirect) ->
  result (execute w this request) = Pending
  \/ exists resp,
       result (execute w this request) = Resolved resp /\ resp_state resp = None.
Proof.
  intros Hst.
  destruct (truthy_str (chosen_filename w request)) eqn:Hname.
  - destruct (chosen_filename w request) as [filename|] eqn:Hchosen;
      [|discriminate].
    destruct (execute_named w this request tokens redirect filename Hst Hchosen Hname)
      as (_ & Hok & Hpending & Hfail).
    destruct (result (sendData w this filename request (client_of w redirect tokens)))
      as [[]|e|] eqn:Hsend.
    + right. rewrite (Hok eq_refl). eauto.
    + destruct (sendData_throws_objects w this filename request _ e Hsend) as [ps ->].
      destruct (Hfail ps eq_refl) as (err & -> & _). right. eauto.
    + left. exact (Hpending eq_refl).
  - right. rewrite (execute_nameless w this request tokens redirect Hst Hname).
    eauto.
Qed.



(** X14. A response of [execute] carries the reset sentinel exactly when
    the request has no usable continuation state; such a response reports
    failure and nothing was contacted for it. With a usable state the
    response carries no state at all. *)
Theorem execute_reset_iff_unusable (w : World) (this : t)
    (request : ActionRequest) (resp : ActionResponse) :
  result (execute w this request) = Resolved resp ->
  (resp_state resp = Some reset_state <-> continuation w request = None)
  /\ (continuation w request = None ->
      success resp = false /\ events (execute w this request) = [])
  /\ (continuation w request <> None -> resp_state resp = None).
Proof.
  intros Hres. destruct (continuation w request) as [[tk r]|] eqn:Hc.
  - destruct (execute_usable_settles w this request tk r Hc)
      as [H | (resp' & H & Hnone)]; rewrite H in Hres; [discriminate|].
    injection Hres as <-. split; [|split].
    + rewrite Hnone. split; discriminate.
    + discriminate.
    + intros _. exact Hnone.
  - destruct (execute_unusable w this request Hc) as [H | [H | H]];
      rewrite H in *; simpl in Hres; try discriminate.
    injection Hres as <-. split; [|split].
    + split; reflexivity.
    + intros _. split; reflexivity.
    + intros Hne. contradiction.
Qed.

Lemma execute_reset_iff_unusable_witness :
  resp_state (reset_response new_ActionResponse) = Some reset_state.
Proof.
  destruct (execute_reset_iff_unusable Sample.granted Sample.this
              (Sample.request_with
                 [("state_json", Sample.stringify Sample.partial_state)] [] None)
              (reset_response new_ActionResponse)) as [[_ H] _].
  - vm_compute; reflexivity.
  - apply H. vm_compute; reflexivity.
Defined.

(** X15. With a usable state but no file name, neither in
    [formParams.filename] nor suggested by the hub, [execute] uploads
    nothing and answers with a structured failure: the bad-request code
    and status, a message naming the file name, and the webhook id. *)
Theorem execute_without_filename (w : World) (this : t) (request : ActionRequest)
    (tokens redirect : value) :
  continuation w request = Some (tokens, redirect) ->
  truthy_str (chosen_filename w request) = false ->
  calls (events (execute w this request)) = []
  /\ exists err,
       result (execute w this request) =
         Resolved {| success := false;
                     resp_message := VStr (message err);
                     resp_state := None;
                     resp_error := Some err;
                     resp_webhookId := webhookId request |}
       /\ http_code err = VNum (code (HTTP_ERROR_bad_request w))
       /\ status_code err = status (HTTP_ERROR_bad_request w)
       /\ message err = err_description (HTTP_ERROR_bad_request w)
                        +:+ " Error creating filename from request".
Proof.
  intros Hst Hname.
  rewrite (execute_nameless w this request tokens redirect Hst Hname).
  split; [reflexivity|].
  exists {| http_code := VNum (code (HTTP_ERROR_bad_request w));
            status_code := status (HTTP_ERROR_bad_request w);
            message := err_description (HTTP_ERROR_bad_request w)
                       +:+ " Error creating filename from request";
            location := "ActionContainer";
            documentation_url := "TODO" |}.
  repeat split.
Qed.

Lemma execute_without_filename_witness :
  calls (events (execute Fixtures.nameless Sample.this (Sample.authorized [] None)))
  = [].
Proof.
  destruct (execute_without_filename Fixtures.nameless Sample.this
              (Sample.authorized [] None) Sample.tokens (VStr Sample.hub_redirect))
    as [H _].
  - vm_compute; reflexivity.
  - vm_compute; reflexivity.
  - exact H.
Defined.

Lemma execute_named_unfold (w : World) (this : t) (request : ActionRequest)
    (tokens redirect : value) (filename : string) :
  continuation w request = Some (tokens, redirect) ->
  chosen_filename w request = Some filename ->
  truthy (VStr filename) = true ->
  execute w this request =
    catch
      (sendData w this filename request (client_of w redirect tokens) ;;
       ret {| success := true; resp_message := VUndef; resp_state := None;
              resp_error := None; resp_webhookId := None |})
      (fun e =>
         let* e_message := read e "message" in
         let error0 :=
           errorWith w (HTTP_ERROR_internal w)
             ("Error while sending data " +:+ str_of w e_message) in
         let* e_code := read e "code" in
         let* e_reason := (if truthy e_code then read e "reason" else ret VUndef) in
         let error :=
           if truthy e_code && truthy e_reason then
             {| http_code := e_code;
                status_code := status_code error0;
                message := err_description (HTTP_ERROR_internal w)
                           +:+ " " +:+ str_of w e_reason;
                location := location error0;
                documentation_url := documentation_url error0 |}
           else error0 in
         emit (Log "error" (message error) (webhookId request)) ;;
         ret {| success := false; resp_message := e_message;
                resp_state := None; resp_error := Some error;
                resp_webhookId := webhookId request |}).
Proof.
  intros Hst Hchosen Hname. open_state Hst.
  unfold execute. rewrite Hparam, Hnonempty.
  cbn [negb]. prologue. cbn [andb]. unfold driveClientFromRequest.
  rewrite bind_ret. fold (chosen_filename w request).
  unfold truthy_str. rewrite Hchosen. cbn [of_opt]. rewrite Hname.
  reflexivity.
Qed.

(** X16. When the provider refuses the one upload [execute] makes, for
    the file named by the request with its type, folder and drive,
    [execute] does not reject. It logs the sanitized provider error and
    then the message of an error record, and answers [success = false]
    with the provider's message, that record and the webhook id. The
    record is the internal error built from "Error while sending data "
    and the provider's message; when the provider's error has both a
    [code] and a [reason], its [http_code] is that code and its message
    the internal error's description followed by the reason. *)
Theorem execute_reports_upload_failure (w : World) (this : t)
    (request : ActionRequest) (tokens redirect : value) (filename : string)
    (p : CreateParams) (ps : list (string * value)) :
  continuation w request = Some (tokens, redirect) ->
  chosen_filename w request = Some filename ->
  truthy (VStr filename) = true ->
  p = {| requestBody :=
           {| fm_name := filename;
              fm_mimeType := getMimeType this request;
              fm_parents :=
                match formParams request !! "folder" with
                | Some folder => if String.eqb folder "" then None else Some [folder]
                | None => None
                end;
              fm_driveId :=
                match formParams request !! "drive" with
                | Some d => if String.eqb d "mydrive" then None else Some d
                | None => None
                end |};
         cp_supportsAllDrives :=
           match formParams request !! "drive" with
           | Some d => if String.eqb d "mydrive" then None else Some true
           | None => None
           end |} ->
  files_create w (client_of w redirect tokens) p = ApiErr ps ->
  exists (ps' : list (string * value)) (err : Error),
    execute w this request =
      ([CallStream;
        Log "info" "Creating new file in Drive" (webhookId request);
        CallFilesCreate (client_of w redirect tokens) p;
        Log "error" (to_string w (VObj ps')) (webhookId request);
        Log "error" (message err) (webhookId request)],
       Resolved {| success := false;
                   resp_message := assoc "message" ps;
                   resp_state := None;
                   resp_error := Some err;
                   resp_webhookId := webhookId request |})
    /\ sanitizeGaxiosError (VObj ps) = ([], Resolved (VObj ps'))
    /\ (truthy (assoc "code" ps) && truthy (assoc "reason" ps) = true ->
        err = {| http_code := assoc "code" ps;
                 status_code :=
                   status_code
                     (errorWith w (HTTP_ERROR_internal w)
                        ("Error while sending data "
                         +:+ str_of w (assoc "message" ps)));
                 message := err_description (HTTP_ERROR_internal w) +:+ " "
                            +:+ str_of w (assoc "reason" ps);
                 location :=
                   location
                     (errorWith w (HTTP_ERROR_internal w)
                        ("Error while sending data "
                         +:+ str_of w (assoc "message" ps)));
                 documentation_url :=
                   documentation_url
                     (errorWith w (HTTP_ERROR_internal w)
                        ("Error while sending data "
                         +:+ str_of w (assoc "message" ps))) |})
    /\ (truthy (assoc "code" ps) && truthy (assoc "reason" ps) = false ->
        err = errorWith w (HTTP_ERROR_internal w)
                ("Error while sending data " +:+ str_of w (assoc "message" ps))).
Proof.
  intros Hst Hchosen Hname Hp Hcreate.
  rewrite <- Upload.upload_params_explicit in Hp. subst p.
  destruct (Upload.sanitize_object_keeps ps) as (ps' & Hs & Hkeep).
  assert (Hrun : sendData w this filename request (client_of w redirect tokens) =
                 ([CallStream;
                   Log "info" "Creating new file in Drive" (webhookId request);
                   CallFilesCreate (client_of w redirect tokens)
                                   (upload_params this filename request);
                   Log "error" (to_string w (VObj ps')) (webhookId request)],
                  Rejected (VObj ps'))).
  { rewrite Upload.sendData_unfold, Hcreate.
    rewrite !bind_emit. unfold call, of_api. cbn [catch]. rewrite Hs, bind_ret.
    reflexivity. }
  rewrite (execute_named_unfold w this request tokens redirect filename
             Hst Hchosen Hname), Hrun.
  cbn [bind catch]. rewrite !read_object, !bind_ret.
  rewrite !(Hkeep "message"), !(Hkeep "code") by discriminate.
  exists ps'.
  destruct (truthy (assoc "code" ps)) eqn:Hcode.
  - rewrite bind_ret, (Hkeep "reason") by discriminate. cbn [andb].
    destruct (truthy (assoc "reason" ps)) eqn:Hreason.
    + eexists. split; [reflexivity|]. split; [exact Hs|].
      split; [intros _; reflexivity | discriminate].
    + eexists. split; [reflexivity|]. split; [exact Hs|].
      split; [discriminate | intros _; reflexivity].
  - rewrite bind_ret. cbn [andb].
    eexists. split; [reflexivity|]. split; [exact Hs|].
    split; [discriminate | intros _; reflexivity].
Qed.

Lemma execute_reports_upload_failure_witness :
  exists (log : string) (err : Error),
    execute Fixtures.full_drive Sample.this
      (Sample.authorized [("drive", "0AB"); ("format", "csv")] (Some "wh-1"))
    = ([CallStream;
        Log "info" "Creating new file in Drive" (Some "wh-1");
        CallFilesCreate
          (client_of Fixtures.full_drive (VStr Sample.hub_redirect) Sample.tokens)
          {| requestBody :=
               {| fm_name := "export.csv"; fm_mimeType := Some "text/csv";
                  fm_parents := None; fm_driveId := Some "0AB" |};
             cp_supportsAllDrives := Some true |};
        Log "error" log (Some "wh-1");
        Log "error" (message err) (Some "wh-1")],
       Resolved
         {| success := false;
            resp_message :=
              VStr "The user's Drive storage quota has been exceeded.";
            resp_state := None;
            resp_error := Some err;
            resp_webhookId := Some "wh-1" |})
    /\ http_code err = VNum 403.
Proof.
  destruct (execute_reports_upload_failure Fixtures.full_drive Sample.this
              (Sample.authorized [("drive", "0AB"); ("format", "csv")] (Some "wh-1"))
              Sample.tokens (VStr Sample.hub_redirect) "export.csv"
              {| requestBody :=
                   {| fm_name := "export.csv"; fm_mimeType := Some "text/csv";
                      fm_parents := None; fm_driveId := Some "0AB" |};
                 cp_supportsAllDrives := Some true |}
              Fixtures.quota_exceeded)
    as (ps' & err & Hrun & _ & Hcode & _).
  - vm_compute; reflexivity.
  - vm_compute; reflexivity.
  - reflexivity.
  - reflexivity.
  - reflexivity.
  - exists (to_string Fixtures.full_drive (VObj ps')), err.
    split; [exact Hrun|]. rewrite (Hcode eq_refl). reflexivity.
Defined.

(** X17. With a usable state, a file name and a provider that accepts
    the upload, [execute] opens the stream, logs "Creating new file in
    Drive", creates exactly one file and answers success with no message,
    state, error or webhook id. The file carries the type of
    [getMimeType], the folder and drive of the form parameters, and the
    name given in [formParams.filename] when that is not empty, else the
    hub's suggestion. *)
Theorem execute_uploads_once (w : World) (this : t) (request : ActionRequest)
    (tokens redirect : value) (filename : string) (p : CreateParams) :
  continuation w request = Some (tokens, redirect) ->
  chosen_filename w request = Some filename ->
  truthy (VStr filename) = true ->
  p = {| requestBody :=
           {| fm_name := filename;
              fm_mimeType := getMimeType this request;
              fm_parents :=
                match formParams request !! "folder" with
                | Some folder => if String.eqb folder "" then None else Some [folder]
                | None => None
                end;
              fm_driveId :=
                match formParams request !! "drive" with
                | Some d => if String.eqb d "mydrive" then None else Some d
                | None => None
                end |};
         cp_supportsAllDrives :=
           match formParams request !! "drive" with
           | Some d => if String.eqb d "mydrive" then None else Some true
           | None => None
           end |} ->
  files_create w (client_of w redirect tokens) p = ApiOk tt ->
  execute w this request =
    ([CallStream;
      Log "info" "Creating new file in Drive" (webhookId request);
      CallFilesCreate (client_of w redirect tokens) p],
     Resolved {| success := true; resp_message := VUndef; resp_state := None;
                 resp_error := None; resp_webhookId := None |})
  /\ (forall given,
        formParams request !! "filename" = Some given -> given <> "" ->
        filename = given)
  /\ (formParams request !! "filename" = None
      \/ formParams request !! "filename" = Some "" ->
      suggestedFilename w request = Some filename).
Proof.
  intros Hst Hchosen Hname Hp Hcreate.
  rewrite <- Upload.upload_params_explicit in Hp. subst p.
  split; [|split].
  - rewrite (execute_named_unfold w this request tokens redirect filename
               Hst Hchosen Hname).
    rewrite (Upload.sendData_accepted w this filename request _ Hcreate).
    reflexivity.
  - intros given Hgiven Hne. unfold chosen_filename, or_else in Hchosen.
    rewrite Hgiven in Hchosen. unfold truthy_str, of_opt, truthy in Hchosen.
    destruct (String.eqb given "") eqn:Hempty.
    + apply String.eqb_eq in Hempty. contradiction.
    + cbn [negb] in Hchosen. congruence.
  - intros Hform. unfold chosen_filename, or_else in Hchosen.
    destruct Hform as [Hform|Hform]; rewrite Hform in Hchosen; exact Hchosen.
Qed.

Lemma execute_uploads_once_witness :
  execute Sample.granted Sample.this
    (Sample.authorized [("filename", "q3.csv"); ("folder", "f1")] (Some "wh-2"))
  = ([CallStream;
      Log "info" "Creating new file in Drive" (Some "wh-2");
      CallFilesCreate
        (client_of Sample.granted (VStr Sample.hub_redirect) Sample.tokens)
        {| requestBody :=
             {| fm_name := "q3.csv"; fm_mimeType := None;
                fm_parents := Some ["f1"]; fm_driveId := None |};
           cp_supportsAllDrives := None |}],
     Resolved {| success := true; resp_message := VUndef; resp_state := None;
                 resp_error := None; resp_webhookId := None |}).
Proof.
  destruct (execute_uploads_once Sample.granted Sample.this
              (Sample.authorized [("filename", "q3.csv"); ("folder", "f1")]
                                 (Some "wh-2"))
              Sample.tokens (VStr Sample.hub_redirect) "q3.csv"
              {| requestBody :=
                   {| fm_name := "q3.csv"; fm_mimeType := None;
                      fm_parents := Some ["f1"]; fm_driveId := None |};
                 cp_supportsAllDrives := None |}) as [H _].
  - vm_compute; reflexivity.
  - vm_compute; reflexivity.
  - reflexivity.
  - reflexivity.
  - reflexivity.
  - exact H.
Defined.

End Outcomes.

(** ** Outcomes of the SFTP action *)

Module SftpOutcomes.

Import SFTPAction.

(** The executor past its two guards, for an address parsed as [u]. *)
Lemma executor_connected (w : World) (request : ActionRequest)
    (payload : list Byte.byte) (address : string) (u : URL) :
  has_data request = Some payload ->
  formParams request !! "address" = Some address ->
  truthy (VStr address) = true ->
  parse_url w address = Some u ->
  truthy (VStr (hostname u)) = true ->
  sftp_connect w (connection w request u) = Resolved tt ->
  truthy (VStr (pathname u)) = true ->
  forall filename,
    chosen_filename w request = Some filename ->
    executor w request =
      (emit (Log "console" "pushkar ------ request.formParams: " None) ;;
       call (CallSftpConnect (connection w request u)) (Resolved tt) ;;
       catch
         (call (CallSftpPut payload (path_join w (pathname u) filename))
               (of_api (sftp_put w payload (path_join w (pathname u) filename))) ;;
          ret (DidResolve new_ActionResponse))
         (fun err => let* m := read err "message" in ret (DidResolve (failed m)))).
Proof.
  intros Hdata Haddr Htruthy Hurl Hhost Hconn Hpath filename Hname.
  unfold executor. rewrite Hdata.
  unfold truthy_str. rewrite Haddr. cbn [of_opt]. rewrite Htruthy. cbn [negb].
  unfold sftpClientFromRequest, address_url. rewrite Haddr, Hurl, !bind_ret.
  rewrite Hhost. cbn [negb]. fold (connection w request u). rewrite Hconn.
  rewrite Hpath. cbn [negb]. fold (chosen_filename w request). rewrite Hname.
  reflexivity.
Qed.

Lemma executor_never_rejects_late (w : World) (request : ActionRequest)
    (payload : list Byte.byte) (v : value) :
  has_data request = Some payload ->
  truthy_str (formParams request !! "address") = true ->
  result (executor w request) <> Resolved (DidReject v).
Proof.
  intros Hdata Haddr. unfold executor. rewrite Hdata, Haddr. cbn [negb].
  intros H. rewrite bind_emit, Pagination.result_pair in H.
  apply bind_resolved_inv in H as (o & _ & H). cbv beta in H.
  apply bind_resolved_inv in H as (u & _ & H). cbv beta in H.
  destruct (negb (truthy (VStr (pathname u)))); [discriminate|].
  destruct (GoogleDriveAction.or_else _ _) as [filename|]; [|discriminate].
  apply catch_resolved_inv in H as [H | (r & _ & H)].
  - apply bind_resolved_inv in H as (x & _ & H). discriminate.
  - apply bind_resolved_inv in H as (x & _ & H). discriminate.
Qed.

(** X18. The SFTP [execute] rejects in two ways only, both before any
    connection: without attachment data, and without an address. The
    later validation messages ("[2]", "[3]"), a refused connection and a
    failed transfer never reach the caller as a rejection. *)
Theorem sftp_rejections (w : World) (request : ActionRequest) (e : value) :
  result (execute w request) = Rejected e ->
  calls (events (execute w request)) = []
  /\ ((has_data request = None
       /\ e = VStr "Couldn't get data from attachment.")
      \/ (truthy_str (formParams request !! "address") = false
          /\ e = VStr "Needs a valid SFTP address. [1]")).
Proof.
  destruct (has_data request) as [payload|] eqn:Hdata.
  - destruct (truthy_str (formParams request !! "address")) eqn:Haddr.
    + intros He. exfalso. unfold execute in He. rewrite bind_emit in He.
      simpl in He. unfold new_Promise in He.
      pose proof (executor_never_rejects_late w request payload e Hdata Haddr) as Hno.
      destruct (executor w request) as [tr [[resp|v]|r|]]; simpl in *;
        try discriminate.
      injection He as <-. apply Hno. reflexivity.
    + rewrite (SftpFacts.execute_no_address w request payload Hdata Haddr).
      simpl. intros [= <-]. split; [reflexivity|]. right. split; reflexivity.
  - rewrite (SftpFacts.execute_no_data w request Hdata).
    simpl. intros [= <-]. split; [reflexivity|]. left. split; reflexivity.
Qed.

Lemma sftp_rejections_witness :
  calls (events (execute Sample.granted (Sample.without_attachment []))) = [].
Proof.
  destruct (sftp_rejections Sample.granted (Sample.without_attachment [])
              (VStr "Couldn't get data from attachment.")) as [H _].
  - vm_compute; reflexivity.
  - exact H.
Defined.

Lemma connection_explicit (w : World) (request : ActionRequest) (u : URL) :
  connection w request u =
    {| host := hostname u;
       username := formParams request !! "username";
       password := formParams request !! "password";
       port := if String.eqb (url_port u) "" then 22 else to_number w (url_port u) |}.
Proof.
  unfold connection, truthy. destruct (String.eqb (url_port u) ""); reflexivity.
Qed.

(** X19. A delivery: with the data, an address that parses to a host
    and a path, a connection the server accepts and a file name, [execute]
    logs twice, connects once to the host with the user name and password
    of the form, on the port the address names and on 22 when it names
    none, and puts the data once at the path joined with the file name:
    [formParams.filename] when not empty, else the hub's suggestion. It
    answers the fresh response, [success = true] with nothing else set,
    when the transfer succeeds; [success = false] with the server's
    message and nothing else set when it fails; and stays pending when
    the server never answers. It does not reject. *)
Theorem sftp_delivery (w : World) (request : ActionRequest)
    (payload : list Byte.byte) (address filename : string) (u : URL)
    (o : ConnectOptions) :
  has_data request = Some payload ->
  formParams request !! "address" = Some address ->
  truthy (VStr address) = true ->
  parse_url w address = Some u ->
  truthy (VStr (hostname u)) = true ->
  o = {| host := hostname u;
         username := formParams request !! "username";
         password := formParams request !! "password";
         port := if String.eqb (url_port u) "" then 22
                 else to_number w (url_port u) |} ->
  sftp_connect w o = Resolved tt ->
  truthy (VStr (pathname u)) = true ->
  chosen_filename w request = Some filename ->
  let remotePath := path_join w (pathname u) filename in
  let trace :=
    [Log "console" "pushkar ------ request: " None;
     Log "console" "pushkar ------ request.formParams: " None;
     CallSftpConnect o;
     CallSftpPut payload remotePath] in
  (sftp_put w payload remotePath = ApiOk tt ->
   execute w request =
     (trace,
      Resolved {| success := true; resp_message := VUndef; resp_state := None;
                  resp_error := None; resp_webhookId := None |}))
  /\ (forall ps,
        sftp_put w payload remotePath = ApiErr ps ->
        execute w request =
          (trace,
           Resolved {| success := false; resp_message := assoc "message" ps;
                       resp_state := None; resp_error := None;
                       resp_webhookId := None |}))
  /\ (sftp_put w payload remotePath = ApiHang ->
      execute w request = (trace, Pending))
  /\ (forall given,
        formParams request !! "filename" = Some given -> given <> "" ->
        filename = given)
  /\ (formParams request !! "filename" = None
      \/ formParams request !! "filename" = Some "" ->
      suggestedFilename w request = Some filename).
Proof.
  intros Hdata Haddr Htruthy Hurl Hhost Ho Hconn Hpath Hname remotePath trace.
  rewrite <- connection_explicit in Ho. subst o.
  assert (Hrun : execute w request =
                 (emit (Log "console" "pushkar ------ request: " None) ;;
                  new_Promise
                    (emit (Log "console" "pushkar ------ request.formParams: " None) ;;
                     call (CallSftpConnect (connection w request u)) (Resolved tt) ;;
                     catch
                       (call (CallSftpPut payload remotePath)
                             (of_api (sftp_put w payload remotePath)) ;;
                        ret (DidResolve new_ActionResponse))
                       (fun err =>
                          let* m := read err "message" in
                          ret (DidResolve (failed m)))))).
  { unfold execute.
    rewrite (executor_connected w request payload address u Hdata Haddr Htruthy
               Hurl Hhost Hconn Hpath filename Hname).
    reflexivity. }
  split; [|split; [|split; [|split]]].
  - intros Hput. rewrite Hrun, Hput. reflexivity.
  - intros ps Hput. rewrite Hrun, Hput. reflexivity.
  - intros Hput. rewrite Hrun, Hput. reflexivity.
  - intros given Hgiven Hne.
    unfold chosen_filename, GoogleDriveAction.or_else in Hname.
    rewrite Hgiven in Hname. unfold truthy_str, of_opt, truthy in Hname.
    destruct (String.eqb given "") eqn:Hempty.
    + apply String.eqb_eq in Hempty. contradiction.
    + cbn [negb] in Hname. congruence.
  - intros Hform. unfold chosen_filename, GoogleDriveAction.or_else in Hname.
    destruct Hform as [Hform|Hform]; rewrite Hform in Hname; exact Hname.
Qed.

Lemma sftp_delivery_witness :
  execute Fixtures.read_only
    (Sample.request_with []
       [("address", "sftp://files.example/upload/"); ("username", "looker");
        ("password", "s3cret"); ("filename", "q3.csv")] None)
  = ([Log "console" "pushkar ------ request: " None;
      Log "console" "pushkar ------ request.formParams: " None;
      CallSftpConnect {| host := "files.example"; username := Some "looker";
                         password := Some "s3cret"; port := 22 |};
      CallSftpPut [] "/upload/q3.csv"],
     Resolved {| success := false; resp_message := VStr "Permission denied";
                 resp_state := None; resp_error := None;
                 resp_webhookId := None |}).
Proof.
  destruct (sftp_delivery Fixtures.read_only
              (Sample.request_with []
                 [("address", "sftp://files.example/upload/");
                  ("username", "looker"); ("password", "s3cret");
                  ("filename", "q3.csv")] None)
              [] "sftp://files.example/upload/" "q3.csv"
              {| hostname := "files.example"; pathname := "/upload/";
                 url_port := "" |}
              {| host := "files.example"; username := Some "looker";
                 password := Some "s3cret"; port := 22 |})
    as (_ & Hfail & _).
  - reflexivity.
  - vm_compute; reflexivity.
  - reflexivity.
  - reflexivity.
  - reflexivity.
  - reflexivity.
  - reflexivity.
  - reflexivity.
  - vm_compute; reflexivity.
  - exact (Hfail [("message", VStr "Permission denied")] eq_refl).
Defined.

(** X20. Past the two guards, whatever else goes wrong leaves the
    promise of [execute] unsettled, and nothing is put: an address that is
    no URL or has no host, a connection the server refuses, an address
    without a path, or no file name. The caller gets neither a response
    nor a rejection. *)
Theorem sftp_unsettled (w : World) (request : ActionRequest)
    (payload : list Byte.byte) (address : string) :
  has_data request = Some payload ->
  formParams request !! "address" = Some address ->
  truthy (VStr address) = true ->
  (parse_url w address = None
   \/ exists u, parse_url w address = Some u
       /\ (truthy (VStr (hostname u)) = false
           \/ (exists r, sftp_connect w (connection w request u) = Rejected r)
           \/ truthy (VStr (pathname u)) = false
           \/ chosen_filename w request = None)) ->
  result (execute w request) = Pending
  /\ forall d p, CallSftpPut d p ∉ events (execute w request).
Proof.
  intros Hdata Haddr Htruthy Hbad.
  assert (Hex : (exists r, result (executor w request) = Rejected r)
                \/ result (executor w request) = Pending).
  { unfold executor. rewrite Hdata. unfold truthy_str. rewrite Haddr.
    cbn [of_opt]. rewrite Htruthy. cbn [negb]. rewrite bind_emit, Pagination.result_pair.
    unfold sftpClientFromRequest, address_url. rewrite Haddr.
    destruct Hbad as [Hnone | (u & Hu & Hbad)].
    - rewrite Hnone. left. eexists. reflexivity.
    - rewrite Hu, !bind_ret. fold (connection w request u).
      destruct (truthy (VStr (hostname u))) eqn:Hhost; cbn [negb];
        [|left; eexists; reflexivity].
      destruct (sftp_connect w (connection w request u)) as [[]|r|] eqn:Hconn;
        [|left; eexists; reflexivity | right; reflexivity].
      destruct (truthy (VStr (pathname u))) eqn:Hpath; cbn [negb];
        [|left; eexists; reflexivity].
      fold (chosen_filename w request).
      destruct (chosen_filename w request) as [filename|] eqn:Hname;
        [|left; eexists; reflexivity].
      destruct Hbad as [H | [[r H] | [H | H]]]; discriminate. }
  assert (Hput : forall d p, CallSftpPut d p ∉ events (executor w request)).
  { intros d p. unfold executor. rewrite Hdata. unfold truthy_str. rewrite Haddr.
    cbn [of_opt]. rewrite Htruthy. cbn [negb]. rewrite bind_emit, Pagination.events_pair.
    unfold sftpClientFromRequest, address_url. rewrite Haddr.
    destruct Hbad as [Hnone | (u & Hu & Hbad)].
    - rewrite Hnone. simpl. rewrite elem_of_cons, elem_of_nil. intros [|[]]; discriminate.
    - rewrite Hu, !bind_ret. fold (connection w request u).
      destruct (truthy (VStr (hostname u))) eqn:Hhost; cbn [negb];
        [|simpl; rewrite elem_of_cons, elem_of_nil; intros [|[]]; discriminate].
      destruct (sftp_connect w (connection w request u)) as [[]|r|] eqn:Hconn;
        [|simpl; rewrite !elem_of_cons, elem_of_nil; intros [|[|[]]]; discriminate ..].
      destruct (truthy (VStr (pathname u))) eqn:Hpath; cbn [negb];
        [|simpl; rewrite !elem_of_cons, elem_of_nil; intros [|[|[]]]; discriminate].
      fold (chosen_filename w request).
      destruct (chosen_filename w request) as [filename|] eqn:Hname;
        [|simpl; rewrite !elem_of_cons, elem_of_nil; intros [|[|[]]]; discriminate].
      destruct Hbad as [H | [[r H] | [H | H]]]; discriminate. }
  unfold execute. rewrite bind_emit. unfold new_Promise.
  destruct (executor w request) as [tr [s|r|]] eqn:Hexec; simpl in *.
  - destruct Hex as [[r Hr] | Hr]; discriminate.
  - split; [reflexivity|]. intros d p Hin. apply elem_of_cons in Hin as [Hin|Hin];
      [discriminate | exact (Hput d p Hin)].
  - split; [reflexivity|]. intros d p Hin. apply elem_of_cons in Hin as [Hin|Hin];
      [discriminate | exact (Hput d p Hin)].
Qed.

Lemma sftp_unsettled_witness :
  result (execute Fixtures.unreachable Fixtures.sftp_request) = Pending.
Proof.
  destruct (sftp_unsettled Fixtures.unreachable Fixtures.sftp_request []
              "sftp://files.example/upload/") as [H _].
  - reflexivity.
  - vm_compute; reflexivity.
  - reflexivity.
  - right. exists {| hostname := "files.example"; pathname := "/upload/";
                     url_port := "" |}.
    split; [reflexivity|]. right. left. eexists. reflexivity.
  - exact H.
Defined.

End SftpOutcomes.
